(** * Intel HDA controller: stream pool, stream tags, lifecycle and client dispatch

    A shallow embedding of
    [system/dev/audio/intel-hda/controller/intel-hda-controller.cpp].

    Integers of the C++ code are [Z] with the wrap-around of their width
    written out; [fbl::RefPtr] values that may be null are [option]s; the
    pool lock is not modelled (every function below is one critical
    section). *)

From Stdlib Require Import ZArith List Bool Lia FinFun Permutation Sorted.
Import ListNotations.
Local Open Scope Z_scope.

(* ================================================================== *)
(** * The model *)
(* ================================================================== *)

(** ** Fatal assertions *)

(** A computation either completes or trips an assertion. *)
Inductive outcome (A : Type) : Type :=
| Done (a : A)
| AssertFailed.
Arguments Done {A} a.
Arguments AssertFailed {A}.

Definition bind {A B : Type} (m : outcome A) (k : A -> outcome B) : outcome B :=
  match m with
  | Done a => k a
  | AssertFailed => AssertFailed
  end.

Notation "m ;; k" := (bind m (fun _ => k))
  (at level 61, right associativity).
Notation "' p <- m ;; k" := (bind m (fun p => k))
  (at level 61, p pattern, m at next level, right associativity).

(** Modelled from the spec: the macro [ZX_DEBUG_ASSERT] comes from
    [zircon/assert.h], which is not among the sources.  The spec calls
    invariant violations "fatal assertions": a false condition ends the
    run. *)
Definition ZX_DEBUG_ASSERT (cond : bool) : outcome unit :=
  if cond then Done tt else AssertFailed.

(** ** Status codes *)

Definition zx_status_t := Z.
Definition ZX_OK : zx_status_t := 0.
Definition ZX_ERR_INVALID_ARGS : zx_status_t := -10.

Definition zx_handle_t := Z.
Definition ZX_HANDLE_INVALID : zx_handle_t := 0.

(** ** Fixed-width arithmetic *)

Definition static_cast_uint16 (z : Z) : Z := z mod 2 ^ 16.

(** [1u << n] on a 32-bit [unsigned int]. *)
Definition shl1u (n : Z) : Z := Z.shiftl 1 n mod 2 ^ 32.

(** [~x] on a 32-bit [unsigned int]. *)
Definition not32 (x : Z) : Z := Z.lnot x mod 2 ^ 32.

(** ** Stream contexts *)

Module IntelHDAStream.

(** [IntelHDAStream::Type]. *)
Inductive Type_ : Set := INVALID | INPUT | OUTPUT | BIDIR.

Definition Type_eqb (a b : Type_) : bool :=
  match a, b with
  | INVALID, INVALID | INPUT, INPUT | OUTPUT, OUTPUT | BIDIR, BIDIR => true
  | _, _ => false
  end.

(** Modelled from the spec: the class [IntelHDAStream] lives in
    [intel-hda-stream.h], which is not among the sources.  The spec gives
    a stream context a node identity used for pool membership, a
    directional identity "fixed at creation" and "not reassigned by
    allocation/return cycling" ([type_]), the type it is currently
    configured as (INVALID while parked, [configured_type_]) and its
    assigned stream tag (0 = unassigned, [tag_]). *)
Record t : Set := mk {
  id_ : Z;                   (* uint16_t, the tree key *)
  type_ : Type_;             (* fixed at creation *)
  configured_type_ : Type_;
  tag_ : Z                   (* uint8_t *)
}.

Definition type (s : t) : Type_ := type_ s.
Definition GetKey (s : t) : Z := id_ s.

(** Modelled from the spec: [Configure(type, tag)] sets what the context
    is configured as and its tag; identity and original type stay. *)
Definition Configure (ty : Type_) (tag : Z) (s : t) : t :=
  mk (id_ s) (type_ s) ty tag.

(** Modelled from the spec: [IntelHDAStream::Tree] is an [fbl::WAVLTree]
    keyed by the context's id, from a library that is not among the
    sources.  It is kept here as the list of its elements in key order:
    [pop_front] takes the element with the least key and [insert] places
    an element by its key. *)
Definition Tree : Set := list t.

Definition is_empty (tr : Tree) : bool :=
  match tr with
  | [] => true
  | _ :: _ => false
  end.

Definition pop_front (tr : Tree) : option t * Tree :=
  match tr with
  | [] => (None, [])
  | s :: rest => (Some s, rest)
  end.

Fixpoint insert (s : t) (tr : Tree) : Tree :=
  match tr with
  | [] => [s]
  | x :: rest =>
      if GetKey s <? GetKey x then s :: x :: rest else x :: insert s rest
  end.

Definition clear (tr : Tree) : Tree := [].

End IntelHDAStream.

(** ** The controller *)

Module IntelHDAController.

Import IntelHDAStream.

(** Modelled from the spec: [enum class State] is declared in
    [intel-hda-controller.h], which is not among the sources; the spec
    lists the four lifecycle states in this order. *)
Inductive State : Set := STARTING | OPERATING | SHUTTING_DOWN | SHUT_DOWN.

Definition State_eqb (a b : State) : bool :=
  match a, b with
  | STARTING, STARTING | OPERATING, OPERATING
  | SHUTTING_DOWN, SHUTTING_DOWN | SHUT_DOWN, SHUT_DOWN => true
  | _, _ => false
  end.

(** [pci_protocol_t]: both pointers may be null. *)
Record pci_protocol_t : Set := mk_pci {
  ops : option Z;
  ctx : option Z
}.

(** The fields of [zx_pcie_device_info_t] that the controller reports. *)
Record pci_dev_info_t : Set := mk_info {
  vendor_id : Z;             (* uint16_t *)
  device_id : Z              (* uint16_t *)
}.

(** The registers of [hda_registers_t] read by the client dispatch. *)
Record hda_registers_t : Set := mk_regs {
  vmin : Z;                  (* uint8_t *)
  vmaj : Z                   (* uint8_t *)
}.

Definition REG_RD (r : Z) : Z := r.

Record t : Set := mk {
  state_ : State;
  id_ : Z;
  regs_handle_ : zx_handle_t;
  irq_handle_ : zx_handle_t;
  pci_ : pci_protocol_t;
  pci_dev_ : option Z;
  pci_dev_info_ : pci_dev_info_t;
  regs_ : option hda_registers_t;
  free_input_streams_ : Tree;
  free_output_streams_ : Tree;
  free_bidir_streams_ : Tree;
  free_input_tags_ : Z;      (* uint16_t *)
  free_output_tags_ : Z;     (* uint16_t *)
  irq_thread_started_ : bool;
  default_domain_active : bool
}.

Definition GetState (c : t) : State := state_ c.

Definition SetState (s : State) (c : t) : t :=
  mk s (id_ c) (regs_handle_ c) (irq_handle_ c) (pci_ c) (pci_dev_ c)
     (pci_dev_info_ c) (regs_ c)
     (free_input_streams_ c) (free_output_streams_ c) (free_bidir_streams_ c)
     (free_input_tags_ c) (free_output_tags_ c)
     (irq_thread_started_ c) (default_domain_active c).

Definition set_pci (p : pci_protocol_t) (c : t) : t :=
  mk (state_ c) (id_ c) (regs_handle_ c) (irq_handle_ c) p (pci_dev_ c)
     (pci_dev_info_ c) (regs_ c)
     (free_input_streams_ c) (free_output_streams_ c) (free_bidir_streams_ c)
     (free_input_tags_ c) (free_output_tags_ c)
     (irq_thread_started_ c) (default_domain_active c).

Definition set_irq_thread_started (b : bool) (c : t) : t :=
  mk (state_ c) (id_ c) (regs_handle_ c) (irq_handle_ c) (pci_ c) (pci_dev_ c)
     (pci_dev_info_ c) (regs_ c)
     (free_input_streams_ c) (free_output_streams_ c) (free_bidir_streams_ c)
     (free_input_tags_ c) (free_output_tags_ c)
     b (default_domain_active c).

Definition set_default_domain_active (b : bool) (c : t) : t :=
  mk (state_ c) (id_ c) (regs_handle_ c) (irq_handle_ c) (pci_ c) (pci_dev_ c)
     (pci_dev_info_ c) (regs_ c)
     (free_input_streams_ c) (free_output_streams_ c) (free_bidir_streams_ c)
     (free_input_tags_ c) (free_output_tags_ c)
     (irq_thread_started_ c) b.

(** *** The three free lists, addressed the way the code addresses them:
    through a pointer to one of the three members. *)

Inductive TreePtr : Set :=
| free_input_streams
| free_output_streams
| free_bidir_streams.

Definition deref (p : TreePtr) (c : t) : Tree :=
  match p with
  | free_input_streams => free_input_streams_ c
  | free_output_streams => free_output_streams_ c
  | free_bidir_streams => free_bidir_streams_ c
  end.

Definition assign (p : TreePtr) (tr : Tree) (c : t) : t :=
  mk (state_ c) (id_ c) (regs_handle_ c) (irq_handle_ c) (pci_ c) (pci_dev_ c)
     (pci_dev_info_ c) (regs_ c)
     (match p with free_input_streams => tr | _ => free_input_streams_ c end)
     (match p with free_output_streams => tr | _ => free_output_streams_ c end)
     (match p with free_bidir_streams => tr | _ => free_bidir_streams_ c end)
     (free_input_tags_ c) (free_output_tags_ c)
     (irq_thread_started_ c) (default_domain_active c).

(** *** The two tag pools: [input ? free_input_tags_ : free_output_tags_]. *)

Definition tag_pool (input : bool) (c : t) : Z :=
  if input then free_input_tags_ c else free_output_tags_ c.

Definition set_tag_pool (input : bool) (v : Z) (c : t) : t :=
  mk (state_ c) (id_ c) (regs_handle_ c) (irq_handle_ c) (pci_ c) (pci_dev_ c)
     (pci_dev_info_ c) (regs_ c)
     (free_input_streams_ c) (free_output_streams_ c) (free_bidir_streams_ c)
     (if input then v else free_input_tags_ c)
     (if input then free_output_tags_ c else v)
     (irq_thread_started_ c) (default_domain_active c).

(** *** [AllocateStreamTagLocked] *)

(** The loop [for (ret = 1; ret < (sizeof(tag_pool) << 3); ++ret)], with
    [n] the number of iterations left; it yields the tag returned and the
    new value of the pool. *)
Fixpoint tag_scan (n : nat) (ret : Z) (pool : Z) : Z * Z :=
  match n with
  | O => (0, pool)
  | S n' =>
      if negb (Z.land pool (shl1u ret) =? 0)
      then (ret, static_cast_uint16 (Z.land pool (not32 (shl1u ret))))
      else tag_scan n' (ret + 1) pool
  end.

Definition AllocateStreamTagLocked (input : bool) (c : t) : Z * t :=
  let '(ret, pool') := tag_scan 15 1 (tag_pool input c) in
  (ret, set_tag_pool input pool' c).

(** *** [ReleaseStreamTagLocked] *)

Definition ReleaseStreamTagLocked (input : bool) (tag : Z) (c : t) : outcome t :=
  let pool := tag_pool input c in
  ZX_DEBUG_ASSERT ((0 <? tag) && (tag <=? 15)) ;;
  ZX_DEBUG_ASSERT (Z.land pool (shl1u tag) =? 0) ;;
  Done (set_tag_pool input (static_cast_uint16 (Z.lor pool (shl1u tag))) c).

(** *** [AllocateStream] *)

Definition AllocateStream (type : Type_) (c : t) : outcome (option IntelHDAStream.t * t) :=
  let take (src : TreePtr) : outcome (option IntelHDAStream.t * t) :=
    (* Allocation fails if we cannot assign a unique tag to this stream. *)
    let '(stream_tag, c1) := AllocateStreamTagLocked (Type_eqb type INPUT) c in
    if stream_tag =? 0 then Done (None, c1)
    else
      match pop_front (deref src c1) with
      | (Some ret, rest) =>
          Done (Some (Configure type stream_tag ret), assign src rest c1)
      | (None, _) => AssertFailed   (* [ret->Configure] through a null pointer *)
      end in
  let from (src : TreePtr) : outcome (option IntelHDAStream.t * t) :=
    if is_empty (deref src c) then
      let src := free_bidir_streams in
      if is_empty (deref src c) then Done (None, c)
      else take src
    else take src in
  match type with
  | INPUT => from free_input_streams
  | OUTPUT => from free_output_streams
  (* Users are not allowed to directly request bidirectional stream contexts. *)
  | _ => ZX_DEBUG_ASSERT false ;; Done (None, c)
  end.

(** *** [ReturnStreamLocked] and [ReturnStream] *)

Definition ReturnStreamLocked (ptr : option IntelHDAStream.t) (c : t) : outcome t :=
  ZX_DEBUG_ASSERT (match ptr with Some _ => true | None => false end) ;;
  match ptr with
  | None => AssertFailed               (* [ptr->type()] through a null pointer *)
  | Some s =>
      let to (dst : TreePtr) : outcome t :=
        let s' := Configure INVALID 0 s in
        Done (assign dst (insert s' (deref dst c)) c) in
      match type s with
      | INPUT => to free_input_streams
      | OUTPUT => to free_output_streams
      | BIDIR => to free_bidir_streams
      | INVALID => ZX_DEBUG_ASSERT false ;; Done c
      end
  end.

Definition ReturnStream (ptr : option IntelHDAStream.t) (c : t) : outcome t :=
  ReturnStreamLocked ptr c.

(** *** Construction and destruction *)

(** The process-wide generator [device_id_gen_] is an
    [fbl::atomic_uint32_t]; [fetch_add(1u)] yields the old value. *)
Definition fetch_add1 (gen : Z) : Z * Z := (gen, (gen + 1) mod 2 ^ 32).

(** Modelled from the spec: the constructor names only [state_] and
    [id_]; the other members take the default initialisers of
    [intel-hda-controller.h], which is not among the sources.  A
    controller that was never bound owns nothing: no handles, no PCI
    protocol, no register window, empty pools, no interrupt thread; the
    tags 1..15 of both directions are free and bit 0 is not a tag. *)
Definition ctor (device_id_gen_ : Z) : t * Z :=
  let '(id, gen') := fetch_add1 device_id_gen_ in
  (mk STARTING id ZX_HANDLE_INVALID ZX_HANDLE_INVALID (mk_pci None None) None
      (mk_info 0 0) None [] [] [] 65534 65534 false false,
   gen').

(** *** Lifecycle code as actions

    The lifecycle functions act on the controller and on the world around
    it (handles, the PCI protocol, the dispatcher domain, the interrupt
    thread).  An action takes the controller and yields, unless an
    assertion trips, the events it caused in the order it caused them and
    the controller it leaves. *)

Inductive Event : Set :=
| EvDeactivate                      (* default_domain_->Deactivate() returned *)
| EvStateWrite (s : State)          (* a store to state_ *)
| EvWakeupIRQThread                 (* WakeupIRQThread() *)
| EvThreadJoin                      (* thrd_join(irq_thread_) returned *)
| EvHandleClose (h : zx_handle_t)   (* zx_handle_close(h) *)
| EvIrqModeDisabled (pci_ctx : Z)   (* set_irq_mode(ctx, DISABLED, 0) *)
| EvReleaseCmdBuf                   (* cmd_buf_mem_.Release() *)
| EvReleaseBdl.                     (* bdl_mem_.Release() *)

Definition action : Type := t -> outcome (list Event * t).

Definition skip : action := fun c => Done ([], c).

Definition andthen (a b : action) : action :=
  fun c =>
    ' r1 <- a c ;;
    ' r2 <- b (snd r1) ;;
    Done (fst r1 ++ fst r2, snd r2).

Notation "a >> b" := (andthen a b) (at level 62, right associativity).

Definition emit (e : t -> Event) : action := fun c => Done ([e c], c).

Definition update (f : t -> t) : action := fun c => Done ([], f c).

Definition when (cond : t -> bool) (a : action) : action :=
  fun c => if cond c then a c else skip c.

Definition assert_that (cond : t -> bool) : action :=
  fun c => ZX_DEBUG_ASSERT (cond c) ;; skip c.

Definition is_some {A : Type} (o : option A) : bool :=
  match o with Some _ => true | None => false end.

(** [SetState] as an action: the store is seen by whoever watches. *)
Definition do_SetState (s : State) : action :=
  emit (fun _ => EvStateWrite s) >> update (SetState s).

(** *** The destructor *)

(** The condition of the first statement of the destructor. *)
Definition dtor_state_assert (c : t) : bool :=
  State_eqb (GetState c) STARTING || State_eqb (GetState c) SHUT_DOWN.

Definition dtor : action :=
  assert_that dtor_state_assert >>
  (* Release our register window. *)
  when (fun c => negb (regs_handle_ c =? ZX_HANDLE_INVALID))
       (assert_that (fun c => is_some (ops (pci_ c))) >>
        emit (fun c => EvHandleClose (regs_handle_ c))) >>
  (* Release our IRQ event. *)
  when (fun c => negb (irq_handle_ c =? ZX_HANDLE_INVALID))
       (emit (fun c => EvHandleClose (irq_handle_ c))) >>
  (* Disable IRQs at the PCI level. *)
  when (fun c => is_some (ops (pci_ c)))
       (assert_that (fun c => is_some (ctx (pci_ c))) >>
        emit (fun c => EvIrqModeDisabled
                         (match ctx (pci_ c) with Some x => x | None => 0 end))) >>
  (* Let go of our stream state. *)
  update (fun c => assign free_input_streams (clear (free_input_streams_ c)) c) >>
  update (fun c => assign free_output_streams (clear (free_output_streams_ c)) c) >>
  update (fun c => assign free_bidir_streams (clear (free_bidir_streams_ c)) c) >>
  (* Release all of our physical memory used to talk directly to the hardware. *)
  emit (fun _ => EvReleaseCmdBuf) >>
  emit (fun _ => EvReleaseBdl) >>
  when (fun c => is_some (ops (pci_ c)))
       (update (set_pci (mk_pci None None))).

(** *** Unbind *)

(** Modelled from the spec: the interrupt thread is not among the
    sources.  The spec has it loop until it observes the shutdown signal
    and then set the state to SHUT_DOWN "as its last act before exiting";
    [thrd_join] returns once the thread has exited. *)
Definition IRQThread_exit : action := do_SetState SHUT_DOWN.

Definition thrd_join_irq_thread : action :=
  IRQThread_exit >> emit (fun _ => EvThreadJoin).

Definition WakeupIRQThread : action := emit (fun _ => EvWakeupIRQThread).

Definition ShutdownIRQThread : action :=
  when irq_thread_started_
       (do_SetState SHUTTING_DOWN >>
        WakeupIRQThread >>
        thrd_join_irq_thread >>
        assert_that (fun c => State_eqb (GetState c) SHUT_DOWN) >>
        update (set_irq_thread_started false)).

(** [default_domain_->Deactivate()]: the event sources are closed and
    dispatch callbacks in flight have been waited for when it returns. *)
Definition Deactivate : action :=
  update (set_default_domain_active false) >> emit (fun _ => EvDeactivate).

Definition DeviceShutdown : action :=
  (* Make sure we have closed all of the event sources and that we have
     synchronized with any dispatch callbacks in flight. *)
  Deactivate >>
  (* If the IRQ thread is running, make sure we shut it down too. *)
  ShutdownIRQThread.

(** The order of the four lifecycle states. *)
Definition rank (s : State) : nat :=
  match s with
  | STARTING => 0
  | OPERATING => 1
  | SHUTTING_DOWN => 2
  | SHUT_DOWN => 3
  end%nat.

(** Every store to the state in [tr], started from state [s], moves
    strictly forward. *)
Fixpoint forward_only (s : State) (tr : list Event) : bool :=
  match tr with
  | [] => true
  | EvStateWrite s' :: tr' => Nat.ltb (rank s) (rank s') && forward_only s' tr'
  | _ :: tr' => forward_only s tr'
  end.

(** *** Driver bind *)

Section Bind.

(** [IntelHDAController::Init] is defined in another file of the
    driver; it is taken as given. *)
Variable zx_device_t : Type.
Variable Init : zx_device_t -> t -> zx_status_t * t.

Record BindResult : Type := mk_bind {
  bind_ret : zx_status_t;
  (* the slot [*cookie], [None] when [cookie] itself is null *)
  bind_cookie : option (option t);
  (* the generator after the call: it moves only when a controller is constructed *)
  bind_device_id_gen : Z;
  (* the controller whose adopted reference the local [RefPtr] drops at scope exit *)
  bind_dropped : option t
}.

Definition DriverBind (device_id_gen_ : Z) (device : zx_device_t)
           (cookie : option (option t)) : BindResult :=
  match cookie with
  | None => mk_bind ZX_ERR_INVALID_ARGS None device_id_gen_ None
  | Some slot =>
      let '(obj, gen') := ctor device_id_gen_ in
      let controller : option t := Some obj in              (* AdoptRef *)
      (* If we successfully initialize, transfer our reference into the
         unmanaged world. *)
      let '(ret, obj) := Init device obj in
      let controller := Some obj in
      let '(slot, controller) :=
        if ret =? ZX_OK then (controller, None)              (* leak_ref *)
        else (slot, controller) in
      mk_bind ret (Some slot) gen' controller
  end.

End Bind.

(** *** Client requests *)

Section Dispatch.

(** The wire format is declared in [intel-hda-proto.h], which is not
    among the sources: the header type with its command field, the
    sizes of the three members of the request union and the two command
    ids are taken as given. *)
Variable ihda_cmd_hdr_t : Type.
Variable cmd : ihda_cmd_hdr_t -> Z.
Variables sizeof_hdr sizeof_get_ids sizeof_snapshot_regs : Z.
Variables IHDA_CMD_GET_IDS IHDA_CONTROLLER_CMD_SNAPSHOT_REGS : Z.

(** The request union: every member starts with the header. *)
Record RequestBuffer : Type := mk_req {
  hdr : ihda_cmd_hdr_t
}.

Record ihda_get_ids_resp_t : Type := mk_ids {
  resp_hdr : ihda_cmd_hdr_t;
  vid : Z;
  did : Z;
  ihda_vmaj : Z;
  ihda_vmin : Z;
  rev_id : Z;
  step_id : Z
}.

Inductive Message : Type :=
| get_ids_resp (r : ihda_get_ids_resp_t)
| other_resp (bytes : list Z).

(** A [dispatcher::Channel]: what the next [Read] yields (status, size
    read, buffer contents), the status the next [Write] yields, and the
    messages handed to [Write] so far. *)
Record Channel : Type := mk_chan {
  next_read : zx_status_t * Z * RequestBuffer;
  next_write : zx_status_t;
  writes : list Message
}.

Definition Read (ch : Channel) : zx_status_t * Z * RequestBuffer :=
  next_read ch.

Definition Write (m : Message) (ch : Channel) : zx_status_t * Channel :=
  (next_write ch, mk_chan (next_read ch) (next_write ch) (writes ch ++ [m])).

(** [IntelHDAController::SnapshotRegs] is defined in another file of
    the driver; it is taken as given. *)
Variable SnapshotRegs : Channel -> RequestBuffer -> t -> zx_status_t * Channel.

Definition ProcessClientRequest (channel : option Channel) (c : t)
  : outcome (zx_status_t * option Channel) :=
  (* Read the client request. *)
  ZX_DEBUG_ASSERT (is_some channel) ;;
  match channel with
  | None => AssertFailed
  | Some ch =>
      let '(res, req_size, req) := Read ch in
      if negb (res =? ZX_OK) then Done (res, Some ch)
      (* Sanity checks *)
      else if req_size <? sizeof_hdr then Done (ZX_ERR_INVALID_ARGS, Some ch)
      (* Dispatch *)
      else if cmd (hdr req) =? IHDA_CMD_GET_IDS then
        if negb (req_size =? sizeof_get_ids) then Done (ZX_ERR_INVALID_ARGS, Some ch)
        else
          ZX_DEBUG_ASSERT (is_some (pci_dev_ c)) ;;
          ZX_DEBUG_ASSERT (is_some (regs_ c)) ;;
          match regs_ c with
          | None => AssertFailed
          | Some regs =>
              let resp :=
                mk_ids (hdr req)
                       (vendor_id (pci_dev_info_ c))
                       (device_id (pci_dev_info_ c))
                       (REG_RD (vmaj regs))
                       (REG_RD (vmin regs))
                       0 0 in
              let '(st, ch') := Write (get_ids_resp resp) ch in
              Done (st, Some ch')
          end
      else if cmd (hdr req) =? IHDA_CONTROLLER_CMD_SNAPSHOT_REGS then
        if negb (req_size =? sizeof_snapshot_regs) then Done (ZX_ERR_INVALID_ARGS, Some ch)
        else
          let '(st, ch') := SnapshotRegs ch req c in
          Done (st, Some ch')
      else Done (ZX_ERR_INVALID_ARGS, Some ch)
  end.

End Dispatch.

Arguments mk_req {ihda_cmd_hdr_t} hdr.
Arguments hdr {ihda_cmd_hdr_t} r.
Arguments mk_ids {ihda_cmd_hdr_t} resp_hdr vid did ihda_vmaj ihda_vmin rev_id step_id.
Arguments resp_hdr {ihda_cmd_hdr_t} i.
Arguments vid {ihda_cmd_hdr_t} i.
Arguments did {ihda_cmd_hdr_t} i.
Arguments ihda_vmaj {ihda_cmd_hdr_t} i.
Arguments ihda_vmin {ihda_cmd_hdr_t} i.
Arguments rev_id {ihda_cmd_hdr_t} i.
Arguments step_id {ihda_cmd_hdr_t} i.
Arguments get_ids_resp {ihda_cmd_hdr_t} r.
Arguments other_resp {ihda_cmd_hdr_t} bytes.
Arguments mk_chan {ihda_cmd_hdr_t} next_read next_write writes.
Arguments next_read {ihda_cmd_hdr_t} c.
Arguments next_write {ihda_cmd_hdr_t} c.
Arguments writes {ihda_cmd_hdr_t} c.
Arguments Read {ihda_cmd_hdr_t} ch.
Arguments Write {ihda_cmd_hdr_t} m ch.

(** *** Release and driver unbind *)

(** Modelled from the spec: [fbl::RefPtr] and [fbl::RefCounted] come from
    a library that is not among the sources.  The spec has the controller
    reference-counted, with one unmanaged reference held by the device
    framework, and has release "reclaim the single unmanaged reference ...
    and let the controller's ordinary reference-counted destruction run":
    giving up a reference lowers the count, and giving up the last one
    destroys the controller. *)
Record Ref : Set := mk_ref {
  object : t;
  ref_count_ : Z
}.

(** [ptr.reset()] on a [RefPtr] that holds one of the references of [r]:
    what is left of the object, [None] once it has been destroyed. *)
Definition RefPtr_reset (r : Ref) : outcome (list Event * option Ref) :=
  if ref_count_ r - 1 =? 0 then
    ' d <- dtor (object r) ;;
    Done (fst d, None)
  else Done ([], Some (mk_ref (object r) (ref_count_ r - 1))).

Definition DeviceRelease (r : Ref) : outcome (list Event * option Ref * zx_status_t) :=
  (* Take our unmanaged reference back from our published device node. *)
  (* ASSERT that we have been properly shut down, then release the DDK's
     reference to our state as we allow thiz to go out of scope. *)
  ZX_DEBUG_ASSERT (State_eqb (GetState (object r)) SHUT_DOWN) ;;
  ' x <- RefPtr_reset r ;;
  Done (fst x, snd x, ZX_OK).

Definition DriverUnbind (cookie : option Ref) : outcome (list Event * option Ref) :=
  ZX_DEBUG_ASSERT (is_some cookie) ;;
  match cookie with
  | None => AssertFailed
  (* Reclaim our reference from the cookie.  Now let go of it. *)
  | Some r => RefPtr_reset r
  end.

(** The unbind hook of the device, on a counted controller. *)
Definition DeviceShutdown_ref (r : Ref) : outcome (list Event * Ref) :=
  ' x <- DeviceShutdown (object r) ;;
  Done (fst x, mk_ref (snd x) (ref_count_ r)).

End IntelHDAController.

(* ================================================================== *)
(** * Vocabulary of the properties *)
(* ================================================================== *)

Import IntelHDAStream.
Import IntelHDAController.

(** The values a [uint16_t] can hold. *)
Definition is_uint16 (z : Z) : Prop := 0 <= z < 2 ^ 16.

(** What one run of the scan over the tags [ret .. ret + n - 1] yields. *)
Inductive scan_result (n : nat) (ret pool : Z) : Z * Z -> Prop :=
| scan_none :
    (forall j, ret <= j < ret + Z.of_nat n -> Z.testbit pool j = false) ->
    scan_result n ret pool (0, pool)
| scan_found (r : Z) :
    ret <= r < ret + Z.of_nat n ->
    Z.testbit pool r = true ->
    (forall j, ret <= j < r -> Z.testbit pool j = false) ->
    scan_result n ret pool
      (r, static_cast_uint16 (Z.land pool (not32 (shl1u r)))).

(** The free list an INPUT or OUTPUT request looks at first. *)
Definition matching (ty : Type_) : TreePtr :=
  match ty with
  | INPUT => free_input_streams
  | _ => free_output_streams
  end.

(** The free list an INPUT or OUTPUT request ends up taking from. *)
Definition source (ty : Type_) (c : IntelHDAController.t) : TreePtr :=
  if is_empty (deref (matching ty) c) then free_bidir_streams else matching ty.

(** The pool classification of a free list, and the free list a context
    belongs to by the type it was created with. *)
Definition class (p : TreePtr) : Type_ :=
  match p with
  | free_input_streams => INPUT
  | free_output_streams => OUTPUT
  | free_bidir_streams => BIDIR
  end.

Definition home (s : IntelHDAStream.t) : TreePtr :=
  match type_ s with
  | INPUT => free_input_streams
  | OUTPUT => free_output_streams
  | _ => free_bidir_streams
  end.

(** Every parked context sits in the free list of the type it was created
    with. *)
Definition pools_classified (c : IntelHDAController.t) : Prop :=
  forall p s, In s (deref p c) -> type_ s = class p.

(** The pool with bit [tag] cleared, as the allocation leaves it. *)
Definition without_tag (pool tag : Z) : Z :=
  static_cast_uint16 (Z.land pool (not32 (shl1u tag))).

(** No tag is free in [pool]. *)
Definition no_free_tag (pool : Z) : Prop :=
  forall j, 1 <= j <= 15 -> Z.testbit pool j = false.

(** [tag] is the lowest free tag of [pool]. *)
Definition lowest_free_tag (pool tag : Z) : Prop :=
  1 <= tag <= 15 /\ Z.testbit pool tag = true
  /\ forall j, 1 <= j < tag -> Z.testbit pool j = false.

(** ** A session of the pool

    The controller together with the contexts that are checked out, and the
    calls a client can make: allocate a stream of some type, or return the
    [k]-th context it holds. *)

Record Session : Set := mk_session {
  ctl : IntelHDAController.t;
  outstanding : list IntelHDAStream.t
}.

Inductive Call : Set :=
| Allocate (ty : Type_)
| Return (k : nat).

Definition remove_nth {A : Type} (k : nat) (l : list A) : list A :=
  firstn k l ++ skipn (S k) l.

Definition call (x : Call) (se : Session) : Session :=
  match x with
  | Allocate ty =>
      match AllocateStream ty (ctl se) with
      | Done (Some s, c') => mk_session c' (s :: outstanding se)
      | Done (None, c') => mk_session c' (outstanding se)
      | AssertFailed => se
      end
  | Return k =>
      match nth_error (outstanding se) k with
      | Some s =>
          match ReturnStream (Some s) (ctl se) with
          | Done c' => mk_session c' (remove_nth k (outstanding se))
          | AssertFailed => se
          end
      | None => se
      end
  end.

Definition run (calls : list Call) (se : Session) : Session :=
  fold_left (fun se x => call x se) calls se.

(** The direction a tag pool serves. *)
Definition direction (input : bool) : Type_ := if input then INPUT else OUTPUT.

(** The tags of the outstanding (tag, direction) pairs of one direction. *)
Definition outstanding_tags (input : bool) (l : list IntelHDAStream.t) : list Z :=
  map tag_ (filter (fun s => Type_eqb (configured_type_ s) (direction input)) l).

(** The number of tags 1..15 whose bit is cleared in a pool. *)
Definition cleared_tags (pool : Z) : nat :=
  length (filter (fun j => negb (Z.testbit pool j)) (map Z.of_nat (seq 1 15))).

(** A pool of one input context with all tags free, nothing checked out. *)
Definition one_input_context : Session :=
  mk_session
    (assign free_input_streams [IntelHDAStream.mk 0 INPUT INVALID 0] (fst (ctor 0)))
    [].

Fixpoint cycles (n : nat) : list Call :=
  match n with
  | O => []
  | S n' => Allocate INPUT :: Return 0 :: cycles n'
  end.

(** Within a direction no tag is held twice, and the bit of every tag held
    is cleared in that direction's pool. *)
Definition tags_inv (se : Session) : Prop :=
  forall input,
    NoDup (outstanding_tags input (outstanding se))
    /\ forall tg, In tg (outstanding_tags input (outstanding se)) ->
         1 <= tg <= 15 /\ Z.testbit (tag_pool input (ctl se)) tg = false.

(** The fixed size a request must have, by its command id; [None] for a
    command id the dispatch does not know. *)
Definition expected_size (sizeof_get_ids sizeof_snapshot_regs : Z)
           (IHDA_CMD_GET_IDS IHDA_CONTROLLER_CMD_SNAPSHOT_REGS : Z)
           (cmd_id : Z) : option Z :=
  if cmd_id =? IHDA_CMD_GET_IDS then Some sizeof_get_ids
  else if cmd_id =? IHDA_CONTROLLER_CMD_SNAPSHOT_REGS then Some sizeof_snapshot_regs
  else None.

(** The interrupt thread runs only before the shutdown has begun. *)
Definition thread_runs_before_shutdown (c : IntelHDAController.t) : Prop :=
  irq_thread_started_ c = true ->
  GetState c = STARTING \/ GetState c = OPERATING.

(** ** Vocabulary of the further properties *)

(** The tags a pool can hand out. *)
Definition all_tags : list Z := map Z.of_nat (seq 1 15).

(** The number of tags that are free in a pool. *)
Definition free_tags (pool : Z) : nat := length (filter (Z.testbit pool) all_tags).

(** A context as it sits in a free list: configured as nothing, no tag. *)
Definition parked (s : IntelHDAStream.t) : Prop :=
  configured_type_ s = INVALID /\ tag_ s = 0.

(** A free list in strictly increasing key order. *)
Definition key_sorted (tr : Tree) : Prop :=
  Sorted (fun a b => GetKey a < GetKey b) tr.

(** The ids of the contexts of a list, and of all three free lists. *)
Definition ids (l : list IntelHDAStream.t) : list Z := map IntelHDAStream.id_ l.

Definition pool_ids (c : IntelHDAController.t) : list Z :=
  ids (free_input_streams_ c) ++ ids (free_output_streams_ c)
  ++ ids (free_bidir_streams_ c).

(** The ids of every context of a session, parked or checked out. *)
Definition session_ids (se : Session) : list Z :=
  ids (outstanding se) ++ pool_ids (ctl se).

(** The destructor's assertions about the PCI protocol hold. *)
Definition pci_consistent (c : IntelHDAController.t) : Prop :=
  (regs_handle_ c <> ZX_HANDLE_INVALID -> ops (pci_ c) <> None)
  /\ (ops (pci_ c) <> None -> ctx (pci_ c) <> None).

(** The values a [uint32_t] can hold. *)
Definition is_uint32 (z : Z) : Prop := 0 <= z < 2 ^ 32.

(** The generator after [n] controllers have been constructed. *)
Fixpoint generator_after (n : nat) (device_id_gen_ : Z) : Z :=
  match n with
  | O => device_id_gen_
  | S n' => snd (ctor (generator_after n' device_id_gen_))
  end.

(** A context as a client holds it: configured as an input or an output
    stream, of that direction or bidirectional by creation, with a tag. *)
Definition checked_out (s : IntelHDAStream.t) : Prop :=
  (configured_type_ s = INPUT \/ configured_type_ s = OUTPUT)
  /\ (type_ s = configured_type_ s \/ type_ s = BIDIR)
  /\ 1 <= tag_ s <= 15.

Definition session_ok (se : Session) : Prop :=
  pools_classified (ctl se)
  /\ forall s, In s (outstanding se) -> checked_out s.

(** The unbind hook followed by the release hook of the device. *)
Definition unbind_then_release (r : Ref)
  : outcome (list Event * option Ref * zx_status_t) :=
  ' x <- DeviceShutdown_ref r ;;
  ' y <- DeviceRelease (snd x) ;;
  Done (fst x ++ fst (fst y), snd (fst y), snd y).

(** ** Sample states *)

(** A bidirectional context, parked. *)
Definition bidir_context : IntelHDAStream.t := IntelHDAStream.mk 7 BIDIR INVALID 0.

(** A pool with no input context, one bidirectional context and all tags
    free. *)
Definition only_bidir_context : IntelHDAController.t :=
  assign free_bidir_streams [bidir_context] (fst (ctor 0)).

(** A controller whose input tags 1 and 3 are in use. *)
Definition tags_1_3_in_use : IntelHDAController.t :=
  set_tag_pool true 65524 (fst (ctor 0)).

(** A pool with one input context and no input tag left. *)
Definition input_tags_exhausted : IntelHDAController.t :=
  set_tag_pool true 0 (ctl one_input_context).

(** A bound controller: PCI device and registers set up, interrupt thread
    running, channels active. *)
Definition operating_controller : IntelHDAController.t :=
  IntelHDAController.mk OPERATING 0 11 12 (mk_pci (Some 1) (Some 2)) (Some 3)
    (mk_info 32902 40304) (Some (mk_regs 0 1))
    [] [] [] 65534 65534 true true.

(** A wire format for the samples: the header is its command id, every
    request is 8 bytes long. *)
Definition sample_snapshot (ch : Channel Z) (_ : RequestBuffer Z)
           (_ : IntelHDAController.t) : zx_status_t * Channel Z :=
  (ZX_OK, ch).

Definition sample_process :=
  ProcessClientRequest Z (fun h => h) 8 8 8 4096 8192 sample_snapshot.

(** Two stand-ins for [Init]: one that succeeds, one that fails. *)
Definition init_ok (_ : unit) (c : IntelHDAController.t)
  : zx_status_t * IntelHDAController.t := (ZX_OK, SetState OPERATING c).

Definition init_fails (_ : unit) (c : IntelHDAController.t)
  : zx_status_t * IntelHDAController.t := (-2, SetState SHUT_DOWN c).

(* ================================================================== *)
(** * Properties *)
(* ================================================================== *)

(** ** Bits of the 16-bit tag pools *)

Section TagBits.

Lemma shl1u_pow2 (r : Z) : 0 <= r < 32 -> shl1u r = 2 ^ r.
Proof.
  intros Hr. unfold shl1u. rewrite Z.shiftl_1_l.
  apply Z.mod_small. split.
  - apply Z.pow_nonneg. lia.
  - apply Z.pow_lt_mono_r; lia.
Qed.

Lemma testbit_shl1u (r i : Z) :
  0 <= r < 32 -> Z.testbit (shl1u r) i = (r =? i).
Proof.
  intros Hr. rewrite shl1u_pow2 by assumption.
  apply Z.pow2_bits_eqb. lia.
Qed.

(** The test [tag_pool & (1u << ret)] looks at bit [ret] and nothing else. *)
Lemma land_shl1u_eq0 (pool r : Z) :
  0 <= r < 32 ->
  (Z.land pool (shl1u r) =? 0) = negb (Z.testbit pool r).
Proof.
  intros Hr.
  destruct (Z.testbit pool r) eqn:Hb; simpl.
  - apply Z.eqb_neq. intros H0.
    assert (Hbit : Z.testbit (Z.land pool (shl1u r)) r = true).
    { rewrite Z.land_spec, Hb, testbit_shl1u, Z.eqb_refl by assumption.
      reflexivity. }
    rewrite H0, Z.bits_0 in Hbit. discriminate.
  - apply Z.eqb_eq. apply Z.bits_inj'. intros i Hi.
    rewrite Z.land_spec, Z.bits_0, testbit_shl1u by assumption.
    destruct (Z.eqb_spec r i) as [->|]; [rewrite Hb|]; auto using andb_false_r.
Qed.

(** [static_cast<uint16_t>(tag_pool & ~(1u << ret))] clears bit [ret]. *)
Lemma testbit_clear (pool r i : Z) :
  0 <= r < 32 -> 0 <= i ->
  Z.testbit (static_cast_uint16 (Z.land pool (not32 (shl1u r)))) i
  = (i <? 16) && Z.testbit pool i && negb (i =? r).
Proof.
  intros Hr Hi. unfold static_cast_uint16, not32.
  rewrite Z.testbit_mod_pow2 by lia.
  destruct (Z.ltb_spec i 16) as [Hlt|Hge]; cbn [andb]; [|reflexivity].
  rewrite Z.land_spec, Z.testbit_mod_pow2 by lia.
  replace (i <? 32) with true by (symmetry; apply Z.ltb_lt; lia).
  rewrite Z.lnot_spec, testbit_shl1u by assumption.
  rewrite (Z.eqb_sym r i). reflexivity.
Qed.

(** [static_cast<uint16_t>(tag_pool | (1u << tag))] sets bit [tag]. *)
Lemma testbit_set (pool r i : Z) :
  0 <= r < 32 -> 0 <= i ->
  Z.testbit (static_cast_uint16 (Z.lor pool (shl1u r))) i
  = (i <? 16) && (Z.testbit pool i || (i =? r)).
Proof.
  intros Hr Hi. unfold static_cast_uint16.
  rewrite Z.testbit_mod_pow2 by lia.
  rewrite Z.lor_spec, testbit_shl1u by assumption.
  rewrite (Z.eqb_sym r i). reflexivity.
Qed.

Lemma uint16_high_bits (z i : Z) : is_uint16 z -> 16 <= i -> Z.testbit z i = false.
Proof.
  intros Hz Hi.
  rewrite <- (Z.mod_small z (2 ^ 16)) by exact Hz.
  apply Z.mod_pow2_bits_high. lia.
Qed.

End TagBits.

(** ** The scan of [AllocateStreamTagLocked] *)

Lemma tag_scan_result (n : nat) :
  forall ret pool,
    0 <= ret -> ret + Z.of_nat n <= 32 ->
    scan_result n ret pool (tag_scan n ret pool).
Proof.
  induction n as [|n IH]; intros ret pool Hret Hn; simpl tag_scan.
  - apply scan_none. intros j Hj. lia.
  - rewrite land_shl1u_eq0, negb_involutive by lia.
    destruct (Z.testbit pool ret) eqn:Hb.
    + apply scan_found; [lia | exact Hb | intros j Hj; lia].
    + destruct (IH (ret + 1) pool ltac:(lia) ltac:(lia)) as [Hnone | r Hr Hbit Hlow].
      * apply scan_none. intros j Hj.
        destruct (Z.eq_dec j ret) as [->|]; [exact Hb | apply Hnone; lia].
      * apply scan_found; [lia | exact Hbit |].
        intros j Hj.
        destruct (Z.eq_dec j ret) as [->|]; [exact Hb | apply Hlow; lia].
Qed.

(** ** Field bookkeeping *)

Lemma AllocateStreamTagLocked_eq (input : bool) (c : t) :
  AllocateStreamTagLocked input c
  = (fst (tag_scan 15 1 (tag_pool input c)),
     set_tag_pool input (snd (tag_scan 15 1 (tag_pool input c))) c).
Proof.
  unfold AllocateStreamTagLocked.
  destruct (tag_scan 15 1 (tag_pool input c)); reflexivity.
Qed.

Lemma tag_pool_set_same (input : bool) (v : Z) (c : t) :
  tag_pool input (set_tag_pool input v c) = v.
Proof. destruct input; reflexivity. Qed.

Lemma tag_pool_set_other (input : bool) (v : Z) (c : t) :
  tag_pool (negb input) (set_tag_pool input v c) = tag_pool (negb input) c.
Proof. destruct input; reflexivity. Qed.

Lemma set_tag_pool_id (input : bool) (c : t) :
  set_tag_pool input (tag_pool input c) c = c.
Proof. destruct c, input; reflexivity. Qed.

Lemma deref_set_tag_pool (p : TreePtr) (input : bool) (v : Z) (c : t) :
  deref p (set_tag_pool input v c) = deref p c.
Proof. destruct p; reflexivity. Qed.

Lemma deref_assign_same (p : TreePtr) (tr : Tree) (c : t) :
  deref p (assign p tr c) = tr.
Proof. destruct p; reflexivity. Qed.

Lemma deref_assign_other (p q : TreePtr) (tr : Tree) (c : t) :
  p <> q -> deref q (assign p tr c) = deref q c.
Proof. destruct p, q; intros H; try reflexivity; congruence. Qed.

Lemma tag_pool_assign (p : TreePtr) (tr : Tree) (input : bool) (c : t) :
  tag_pool input (assign p tr c) = tag_pool input c.
Proof. destruct input; reflexivity. Qed.

(** What [AllocateStreamTagLocked] yields, by cases on the scan. *)
Lemma AllocateStreamTagLocked_cases (input : bool) (c : t) :
  let pool := tag_pool input c in
  let r := fst (AllocateStreamTagLocked input c) in
  let c1 := snd (AllocateStreamTagLocked input c) in
  (r = 0 /\ c1 = c /\ forall j, 1 <= j <= 15 -> Z.testbit pool j = false)
  \/ (1 <= r <= 15 /\ Z.testbit pool r = true
      /\ (forall j, 1 <= j < r -> Z.testbit pool j = false)
      /\ c1 = set_tag_pool input
                (static_cast_uint16 (Z.land pool (not32 (shl1u r)))) c).
Proof.
  intros pool r c1. subst r c1. rewrite AllocateStreamTagLocked_eq. simpl fst; simpl snd.
  fold pool.
  pose proof (tag_scan_result 15 1 pool ltac:(lia) ltac:(lia)) as H.
  inversion H as [Hnone Heq | r Hr Hbit Hlow Heq]; simpl fst; simpl snd.
  - left. split; [reflexivity|]. split; [apply set_tag_pool_id|].
    intros j Hj. apply Hnone. lia.
  - right. repeat split; try lia; try assumption.
Qed.

(** ** C4: lowest free tag first, and a released tag is free again *)

(** C4.  For either direction and every 16-bit tag pool,
    [AllocateStreamTagLocked] returns 0 and leaves the pool alone exactly
    when none of the bits 1..15 is set; otherwise it returns the lowest tag
    in 1..15 whose bit is set (never bit 0) and clears that bit and no
    other, in that direction's pool only.  [ReleaseStreamTagLocked] of a
    tag in 1..15 whose bit is clear sets that bit and no other, after which
    the next allocation in that direction returns a tag, at most the
    released one, and the released one itself when no lower tag is free. *)
Theorem tag_alloc_lowest_and_release (input : bool) (c : t) :
  is_uint16 (tag_pool input c) ->
  let pool := tag_pool input c in
  let r := fst (AllocateStreamTagLocked input c) in
  let c1 := snd (AllocateStreamTagLocked input c) in
  ((r = 0 /\ c1 = c /\ (forall j, 1 <= j <= 15 -> Z.testbit pool j = false))
   \/ (1 <= r <= 15 /\ Z.testbit pool r = true
       /\ (forall j, 1 <= j < r -> Z.testbit pool j = false)
       /\ (forall i, 0 <= i ->
             Z.testbit (tag_pool input c1) i = Z.testbit pool i && negb (i =? r))
       /\ tag_pool (negb input) c1 = tag_pool (negb input) c))
  /\ (forall tag, 1 <= tag <= 15 -> Z.testbit pool tag = false ->
        exists c2,
          ReleaseStreamTagLocked input tag c = Done c2
          /\ (forall i, 0 <= i ->
                Z.testbit (tag_pool input c2) i = Z.testbit pool i || (i =? tag))
          /\ tag_pool (negb input) c2 = tag_pool (negb input) c
          /\ 1 <= fst (AllocateStreamTagLocked input c2) <= tag
          /\ ((forall j, 1 <= j < tag -> Z.testbit pool j = false) ->
              fst (AllocateStreamTagLocked input c2) = tag)).
Proof.
  intros Hu pool r c1. split.
  - destruct (AllocateStreamTagLocked_cases input c)
      as [(H0 & Hc & Hn) | (Hr & Hb & Hlow & Hc)].
    + left. auto.
    + right. fold r in Hr, Hb, Hlow, Hc. fold c1 in Hc. fold pool in Hb, Hlow, Hc.
      repeat split; try lia; try assumption.
      * intros i Hi. rewrite Hc, tag_pool_set_same, testbit_clear by lia.
        destruct (Z.ltb_spec i 16) as [Hlt|Hge]; [reflexivity|].
        cbn [andb]. rewrite (uint16_high_bits pool i Hu Hge). reflexivity.
      * rewrite Hc. apply tag_pool_set_other.
  - intros tag Htag Hclear.
    unfold ReleaseStreamTagLocked. fold pool.
    replace ((0 <? tag) && (tag <=? 15)) with true
      by (symmetry; apply andb_true_iff; split; [apply Z.ltb_lt | apply Z.leb_le]; lia).
    rewrite land_shl1u_eq0, Hclear by lia. cbn [negb ZX_DEBUG_ASSERT bind].
    set (pool2 := static_cast_uint16 (Z.lor pool (shl1u tag))).
    assert (Hbits : forall i, 0 <= i ->
              Z.testbit pool2 i = Z.testbit pool i || (i =? tag)).
    { intros i Hi. unfold pool2. rewrite testbit_set by lia.
      destruct (Z.ltb_spec i 16) as [Hlt|Hge]; [reflexivity|].
      cbn [andb]. rewrite (uint16_high_bits pool i Hu Hge).
      symmetry. apply Z.eqb_neq. lia. }
    exists (set_tag_pool input pool2 c).
    split; [reflexivity|].
    split; [intros i Hi; rewrite tag_pool_set_same; auto|].
    split; [apply tag_pool_set_other|].
    destruct (AllocateStreamTagLocked_cases input (set_tag_pool input pool2 c))
      as [(H0 & _ & Hn) | (Hr & Hb & Hlow & _)].
    + exfalso. rewrite tag_pool_set_same in Hn.
      specialize (Hn tag ltac:(lia)).
      rewrite Hbits, Z.eqb_refl, orb_true_r in Hn by lia. discriminate.
    + rewrite tag_pool_set_same in Hb, Hlow.
      set (r2 := fst (AllocateStreamTagLocked input (set_tag_pool input pool2 c))) in *.
      assert (Hle : r2 <= tag).
      { destruct (Z.le_gt_cases r2 tag) as [|Hgt]; [assumption|].
        specialize (Hlow tag ltac:(lia)).
        rewrite Hbits, Z.eqb_refl, orb_true_r in Hlow by lia. discriminate. }
      split; [lia|].
      intros Hbelow.
      destruct (Z.eq_dec r2 tag) as [|Hne]; [assumption|].
      exfalso. rewrite Hbits in Hb by lia.
      rewrite (Hbelow r2 ltac:(lia)) in Hb.
      replace (r2 =? tag) with false in Hb by (symmetry; apply Z.eqb_neq; lia).
      discriminate.
Qed.

(** The two ways [AllocateStreamTagLocked] can end. *)
Lemma AllocateStreamTagLocked_dec (input : bool) (c : t) :
  (no_free_tag (tag_pool input c) /\ AllocateStreamTagLocked input c = (0, c))
  \/ (exists tag,
        lowest_free_tag (tag_pool input c) tag
        /\ AllocateStreamTagLocked input c
           = (tag, set_tag_pool input (without_tag (tag_pool input c) tag) c)).
Proof.
  pose proof (AllocateStreamTagLocked_cases input c) as H. cbv zeta in H.
  destruct (AllocateStreamTagLocked input c) as [r c1]; cbn [fst snd] in H.
  destruct H as [(-> & -> & Hn) | (Hr & Hb & Hlow & ->)].
  - left. split; [exact Hn | reflexivity].
  - right. exists r. split; [repeat split; assumption || lia | reflexivity].
Qed.

Lemma lowest_free_tag_unique (pool a b : Z) :
  lowest_free_tag pool a -> lowest_free_tag pool b -> a = b.
Proof.
  intros (Ha & Hba & Hla) (Hb & Hbb & Hlb).
  destruct (Z.lt_trichotomy a b) as [Hlt | [Heq | Hgt]]; [|assumption|].
  - rewrite (Hlb a) in Hba by lia. discriminate.
  - rewrite (Hla b) in Hbb by lia. discriminate.
Qed.

Lemma no_free_tag_alloc (input : bool) (c : t) :
  no_free_tag (tag_pool input c) -> AllocateStreamTagLocked input c = (0, c).
Proof.
  intros Hn.
  destruct (AllocateStreamTagLocked_dec input c) as [[_ H] | (tag & (Ht & Hb & _) & _)].
  - exact H.
  - rewrite (Hn tag Ht) in Hb. discriminate.
Qed.

Lemma lowest_free_tag_alloc (input : bool) (c : t) (tag : Z) :
  lowest_free_tag (tag_pool input c) tag ->
  AllocateStreamTagLocked input c
  = (tag, set_tag_pool input (without_tag (tag_pool input c) tag) c).
Proof.
  intros Hl.
  destruct (AllocateStreamTagLocked_dec input c) as [[Hn _] | (tag' & Hl' & H)].
  - destruct Hl as (Ht & Hb & _). rewrite (Hn tag Ht) in Hb. discriminate.
  - rewrite (lowest_free_tag_unique _ _ _ Hl Hl'). exact H.
Qed.

(** [AllocateStream] for the two types a caller may ask for, with the
    selection of the free list spelled out. *)
Lemma AllocateStream_eq (ty : Type_) (c : t) :
  ty = INPUT \/ ty = OUTPUT ->
  AllocateStream ty c
  = if is_empty (deref (source ty c) c) then Done (None, c)
    else
      let '(stream_tag, c1) := AllocateStreamTagLocked (Type_eqb ty INPUT) c in
      if stream_tag =? 0 then Done (None, c1)
      else
        match pop_front (deref (source ty c) c1) with
        | (Some ret, rest) =>
            Done (Some (Configure ty stream_tag ret), assign (source ty c) rest c1)
        | (None, _) => AssertFailed
        end.
Proof.
  intros [-> | ->]; unfold AllocateStream, source, matching.
  - destruct (is_empty (deref free_input_streams c)) eqn:He;
      [reflexivity | rewrite He; reflexivity].
  - destruct (is_empty (deref free_output_streams c)) eqn:He;
      [reflexivity | rewrite He; reflexivity].
Qed.

Lemma is_empty_nil (tr : Tree) : is_empty tr = true <-> tr = [].
Proof. destruct tr; simpl; split; congruence. Qed.

(** ** C3: the cases of [AllocateStream] *)

(** C3.  For a request of type INPUT or OUTPUT, [AllocateStream] looks at
    the matching free list and, when that is empty, at the bidirectional
    one.  When the list it ends up with is empty the call returns no stream;
    when a context is there but no tag of the requested direction is free
    the call returns no stream as well; otherwise it pops the first context
    of that list, takes the lowest free tag of the requested direction,
    configures the context with the requested type and that tag and returns
    it.  In every case the call returns: it trips no assertion and waits
    for nothing. *)
Theorem AllocateStream_cases (ty : Type_) (c : t) :
  ty = INPUT \/ ty = OUTPUT ->
  let input := Type_eqb ty INPUT in
  let src := source ty c in
  (source ty c = matching ty \/
   (deref (matching ty) c = [] /\ source ty c = free_bidir_streams))
  /\ (deref src c = [] -> AllocateStream ty c = Done (None, c))
  /\ (deref src c <> [] -> no_free_tag (tag_pool input c) ->
      AllocateStream ty c = Done (None, c))
  /\ (forall s rest tag,
        deref src c = s :: rest ->
        lowest_free_tag (tag_pool input c) tag ->
        AllocateStream ty c
        = Done (Some (Configure ty tag s),
                assign src rest
                  (set_tag_pool input (without_tag (tag_pool input c) tag) c)))
  /\ (exists r, AllocateStream ty c = Done r).
Proof.
  intros Hty input src.
  assert (Hsrc : source ty c = matching ty \/
                 (deref (matching ty) c = [] /\ source ty c = free_bidir_streams)).
  { unfold source. destruct (is_empty (deref (matching ty) c)) eqn:He.
    - right. split; [apply is_empty_nil; exact He | reflexivity].
    - left. reflexivity. }
  assert (H1 : deref src c = [] -> AllocateStream ty c = Done (None, c)).
  { intros He. rewrite AllocateStream_eq by assumption. fold src. rewrite He.
    reflexivity. }
  assert (H2 : deref src c <> [] -> no_free_tag (tag_pool input c) ->
               AllocateStream ty c = Done (None, c)).
  { intros Hne Hn. rewrite AllocateStream_eq by assumption. fold src input.
    destruct (deref src c) eqn:Hd; [congruence|]. cbn [is_empty].
    rewrite (no_free_tag_alloc input c Hn). reflexivity. }
  assert (H3 : forall s rest tag,
             deref src c = s :: rest ->
             lowest_free_tag (tag_pool input c) tag ->
             AllocateStream ty c
             = Done (Some (Configure ty tag s),
                     assign src rest
                       (set_tag_pool input (without_tag (tag_pool input c) tag) c))).
  { intros s rest tag Hd Hl. rewrite AllocateStream_eq by assumption. fold src input.
    rewrite Hd. cbn [is_empty].
    rewrite (lowest_free_tag_alloc input c tag Hl).
    replace (tag =? 0) with false
      by (symmetry; apply Z.eqb_neq; destruct Hl as (Ht & _); lia).
    rewrite deref_set_tag_pool, Hd. reflexivity. }
  repeat split; try assumption.
  destruct (deref src c) as [|s rest] eqn:Hd.
  - eexists. apply H1. reflexivity.
  - destruct (AllocateStreamTagLocked_dec input c) as [[Hn _] | (tag & Hl & _)].
    + eexists. apply H2; [congruence | exact Hn].
    + eexists. apply (H3 s rest tag); [reflexivity | exact Hl].
Qed.

(** ** C9: a failed allocation changes nothing *)

Lemma AllocateStream_none (ty : Type_) (c c' : t) :
  AllocateStream ty c = Done (None, c') -> c' = c.
Proof.
  intros H.
  assert (Hty : ty = INPUT \/ ty = OUTPUT)
    by (destruct ty; auto; discriminate H).
  rewrite AllocateStream_eq in H by assumption.
  destruct (is_empty (deref (source ty c) c)); [congruence|].
  destruct (AllocateStreamTagLocked_dec (Type_eqb ty INPUT) c)
    as [[_ Ha] | (tag & (Ht & _) & Ha)]; rewrite Ha in H.
  - cbn [Z.eqb] in H. congruence.
  - replace (tag =? 0) with false in H by (symmetry; apply Z.eqb_neq; lia).
    destruct (pop_front _) as [[ret|] rest]; discriminate H.
Qed.

(** C9.  Whenever [AllocateStream] returns no stream, the controller it
    leaves is the controller it was given: the three free lists and the two
    tag pools are as they were.  In particular, when a context is there but
    no tag of the requested direction is free, the call returns no stream
    and the context is still the first of its free list. *)
Theorem AllocateStream_failure_unchanged (ty : Type_) (c c' : t) :
  (AllocateStream ty c = Done (None, c') ->
   c' = c
   /\ free_input_streams_ c' = free_input_streams_ c
   /\ free_output_streams_ c' = free_output_streams_ c
   /\ free_bidir_streams_ c' = free_bidir_streams_ c
   /\ free_input_tags_ c' = free_input_tags_ c
   /\ free_output_tags_ c' = free_output_tags_ c)
  /\ (forall s rest,
        ty = INPUT \/ ty = OUTPUT ->
        deref (source ty c) c = s :: rest ->
        no_free_tag (tag_pool (Type_eqb ty INPUT) c) ->
        exists c1,
          AllocateStream ty c = Done (None, c1)
          /\ deref (source ty c) c1 = s :: rest).
Proof.
  split.
  - intros H.
    assert (Hc : c' = c) by (eapply AllocateStream_none; exact H).
    subst c'. repeat split; reflexivity.
  - intros s rest Hty Hd Hn. exists c. split; [|exact Hd].
    rewrite AllocateStream_eq by assumption. rewrite Hd. cbn [is_empty].
    rewrite (no_free_tag_alloc _ c Hn). reflexivity.
Qed.

(** ** C1: a returned context goes back to the free list of its own type *)

Lemma In_insert (s : IntelHDAStream.t) (tr : Tree) : In s (insert s tr).
Proof.
  induction tr as [|x tr IH]; simpl.
  - left. reflexivity.
  - destruct (GetKey s <? GetKey x); simpl; auto.
Qed.

Lemma In_insert_inv (s x : IntelHDAStream.t) (tr : Tree) :
  In x (insert s tr) -> x = s \/ In x tr.
Proof.
  induction tr as [|y tr IH]; simpl.
  - intros [H | []]. left. congruence.
  - destruct (GetKey s <? GetKey y); simpl.
    + intros [H | H]; [left; congruence | right; exact H].
    + intros [H | H]; [right; left; exact H |].
      destruct (IH H) as [He | Hi]; [left; exact He | right; right; exact Hi].
Qed.

Lemma class_home (s : IntelHDAStream.t) :
  type_ s <> INVALID -> class (home s) = type_ s.
Proof. unfold home. destruct (type_ s); simpl; congruence. Qed.

Lemma home_class (s : IntelHDAStream.t) (p : TreePtr) :
  type_ s = class p -> home s = p.
Proof. unfold home. intros ->. destruct p; reflexivity. Qed.

Lemma ReturnStream_eq (s : IntelHDAStream.t) (c : t) :
  type_ s <> INVALID ->
  ReturnStream (Some s) c
  = Done (assign (home s) (insert (Configure INVALID 0 s) (deref (home s) c)) c).
Proof.
  intros Hs. unfold ReturnStream, ReturnStreamLocked, home, type.
  destruct (type_ s); try reflexivity. congruence.
Qed.

Lemma TreePtr_eq_dec (p q : TreePtr) : {p = q} + {p <> q}.
Proof. decide equality. Qed.

(** Returning a context keeps every free list to contexts of its own
    class. *)
Lemma ReturnStream_classified (s : IntelHDAStream.t) (c c' : t) :
  type_ s <> INVALID ->
  pools_classified c ->
  ReturnStream (Some s) c = Done c' ->
  pools_classified c'.
Proof.
  intros Hs Hcl Hr. rewrite ReturnStream_eq in Hr by exact Hs.
  injection Hr as <-. intros p x Hin.
  destruct (TreePtr_eq_dec (home s) p) as [<- | Hne].
  - rewrite deref_assign_same in Hin.
    destruct (In_insert_inv _ _ _ Hin) as [-> | Hold].
    + cbn [Configure type_]. symmetry. apply class_home. exact Hs.
    + apply Hcl. exact Hold.
  - rewrite deref_assign_other in Hin by exact Hne.
    apply Hcl. exact Hin.
Qed.

(** What a successful [AllocateStream] hands out and leaves behind. *)
Lemma AllocateStream_success (ty : Type_) (c c1 : t) (s : IntelHDAStream.t) :
  AllocateStream ty c = Done (Some s, c1) ->
  (ty = INPUT \/ ty = OUTPUT)
  /\ exists s0 rest tag,
       deref (source ty c) c = s0 :: rest
       /\ lowest_free_tag (tag_pool (Type_eqb ty INPUT) c) tag
       /\ s = Configure ty tag s0
       /\ c1 = assign (source ty c) rest
                 (set_tag_pool (Type_eqb ty INPUT)
                    (without_tag (tag_pool (Type_eqb ty INPUT) c) tag) c).
Proof.
  intros H.
  assert (Hty : ty = INPUT \/ ty = OUTPUT)
    by (destruct ty; auto; discriminate H).
  split; [exact Hty|].
  rewrite AllocateStream_eq in H by assumption.
  destruct (deref (source ty c) c) as [|s0 rest] eqn:Hd; [discriminate H|].
  cbn [is_empty] in H.
  destruct (AllocateStreamTagLocked_dec (Type_eqb ty INPUT) c)
    as [[_ Ha] | (tag & Hl & Ha)]; rewrite Ha in H.
  - discriminate H.
  - replace (tag =? 0) with false in H
      by (symmetry; apply Z.eqb_neq; destruct Hl as (Ht & _); lia).
    rewrite deref_set_tag_pool, Hd in H. cbn [pop_front] in H.
    exists s0, rest, tag. injection H as <- <-. auto.
Qed.

(** C1.  [ReturnStream] of a context whose creation type is INPUT, OUTPUT
    or BIDIR resets what the context is configured as to INVALID and its tag
    to 0, keeps its identity and creation type, and inserts it into the free
    list of its creation type, leaving the other two lists as they were;
    if every parked context sat in the list of its creation type before,
    it does so after.  When the context is the one [AllocateStream] just handed out from
    classified pools, that list is the one it was popped from; so a context
    taken from the bidirectional list, whichever direction it was
    configured as, goes back to the bidirectional list and the input and
    output lists keep their contents. *)
Theorem ReturnStream_original_pool (s : IntelHDAStream.t) (c : t) :
  type_ s <> INVALID ->
  let parked := Configure INVALID 0 s in
  (exists c',
     ReturnStream (Some s) c = Done c'
     /\ deref (home s) c' = insert parked (deref (home s) c)
     /\ In parked (deref (home s) c')
     /\ (forall q, q <> home s -> deref q c' = deref q c)
     /\ (pools_classified c -> pools_classified c')
     /\ (forall ty c0,
           pools_classified c0 ->
           AllocateStream ty c0 = Done (Some s, c) ->
           configured_type_ s = ty
           /\ home s = source ty c0
           /\ (source ty c0 = free_bidir_streams ->
               type_ s = BIDIR
               /\ In parked (free_bidir_streams_ c')
               /\ free_input_streams_ c' = free_input_streams_ c
               /\ free_output_streams_ c' = free_output_streams_ c)))
  /\ class (home s) = type_ s
  /\ configured_type_ parked = INVALID
  /\ tag_ parked = 0
  /\ type_ parked = type_ s
  /\ IntelHDAStream.id_ parked = IntelHDAStream.id_ s.
Proof.
  intros Hs parked. split; [|repeat split; apply class_home; exact Hs].
  eexists. split; [apply ReturnStream_eq; exact Hs|].
  split; [apply deref_assign_same|].
  split; [rewrite deref_assign_same; apply In_insert|].
  split; [intros q Hq; apply deref_assign_other; congruence|].
  split; [intros Hcl; apply (ReturnStream_classified s c _ Hs Hcl);
          apply ReturnStream_eq; exact Hs|].
  intros ty c0 Hcl Ha.
  destruct (AllocateStream_success ty c0 c s Ha)
    as (Hty & s0 & rest & tag & Hd & Hl & -> & Hc).
  assert (Hhome : home (Configure ty tag s0) = source ty c0).
  { apply home_class. cbn [Configure type_].
    apply Hcl. rewrite Hd. left. reflexivity. }
  split; [reflexivity|]. split; [exact Hhome|].
  intros Hb. rewrite Hhome, Hb.
  split; [cbn [Configure type_]; rewrite (Hcl (source ty c0) s0), Hb;
          [reflexivity | rewrite Hd; left; reflexivity]|].
  split; [apply In_insert|]. split; reflexivity.
Qed.

(** ** C2: tags of outstanding allocations *)

Lemma ReturnStream_tag_pools (ptr : option IntelHDAStream.t) (c c' : t) :
  ReturnStream ptr c = Done c' ->
  forall input, tag_pool input c' = tag_pool input c.
Proof.
  unfold ReturnStream, ReturnStreamLocked.
  destruct ptr as [s|]; [|discriminate].
  cbn [ZX_DEBUG_ASSERT bind].
  destruct (type s); cbn [ZX_DEBUG_ASSERT bind]; try discriminate;
    intros H input; injection H as <-; apply tag_pool_assign.
Qed.

(** C2, at the input where the code departs from it.  From a pool of one
    input context with all tags free, allocate an input stream and return
    it: nothing is outstanding, yet one bit of the input tag pool (tag 1)
    is still cleared, because [ReturnStream] never gives the tag back.
    After fifteen such rounds nothing is outstanding, the context is parked
    in the input free list, every input tag is cleared and the next
    [AllocateStream(INPUT)] returns no stream. *)
Theorem returned_tag_stays_cleared :
  let se1 := run [Allocate INPUT; Return 0] one_input_context in
  let se15 := run (cycles 15) one_input_context in
  free_input_tags_ (ctl one_input_context) = 65534
  /\ cleared_tags (free_input_tags_ (ctl one_input_context)) = 0%nat
  /\ outstanding se1 = []
  /\ outstanding_tags true (outstanding se1) = []
  /\ free_input_tags_ (ctl se1) = 65532
  /\ cleared_tags (free_input_tags_ (ctl se1)) = 1%nat
  /\ outstanding se15 = []
  /\ free_input_streams_ (ctl se15) = [IntelHDAStream.mk 0 INPUT INVALID 0]
  /\ cleared_tags (free_input_tags_ (ctl se15)) = 15%nat
  /\ AllocateStream INPUT (ctl se15) = Done (None, ctl se15).
Proof. vm_compute. repeat split; reflexivity. Qed.

(** The half of C2 that the code keeps: along every sequence of calls,
    started with nothing checked out, no tag is outstanding twice within a
    direction, and the bit of every outstanding tag is cleared. *)

Lemma remove_nth_app {A : Type} (l1 : list A) (a : A) (l2 : list A) :
  remove_nth (length l1) (l1 ++ a :: l2) = l1 ++ l2.
Proof.
  unfold remove_nth. induction l1 as [|x l1 IH]; simpl.
  - reflexivity.
  - f_equal. exact IH.
Qed.

Lemma outstanding_tags_app (input : bool) (l1 l2 : list IntelHDAStream.t) :
  outstanding_tags input (l1 ++ l2)
  = outstanding_tags input l1 ++ outstanding_tags input l2.
Proof. unfold outstanding_tags. rewrite filter_app, map_app. reflexivity. Qed.

Lemma outstanding_tags_cons (input : bool) (s : IntelHDAStream.t)
      (l : list IntelHDAStream.t) :
  outstanding_tags input (s :: l)
  = if Type_eqb (configured_type_ s) (direction input)
    then tag_ s :: outstanding_tags input l
    else outstanding_tags input l.
Proof.
  unfold outstanding_tags. simpl.
  destruct (Type_eqb (configured_type_ s) (direction input)); reflexivity.
Qed.

Lemma tags_inv_return (c c' : t) (l : list IntelHDAStream.t) (k : nat)
      (s : IntelHDAStream.t) :
  tags_inv (mk_session c l) ->
  nth_error l k = Some s ->
  (forall input, tag_pool input c' = tag_pool input c) ->
  tags_inv (mk_session c' (remove_nth k l)).
Proof.
  intros Hinv Hk Hpool input. destruct (Hinv input) as [Hnd Hbits].
  cbn [ctl outstanding] in *.
  destruct (nth_error_split l k Hk) as (l1 & l2 & -> & <-).
  rewrite remove_nth_app, outstanding_tags_app.
  rewrite outstanding_tags_app, outstanding_tags_cons in Hnd, Hbits.
  rewrite Hpool.
  destruct (Type_eqb (configured_type_ s) (direction input)).
  - split.
    + eapply NoDup_remove_1. exact Hnd.
    + intros tg Hin. apply Hbits.
      apply in_app_or in Hin. apply in_or_app.
      destruct Hin as [Hin | Hin]; [left | right; right]; exact Hin.
  - split; assumption.
Qed.

Lemma tags_inv_allocate (ty : Type_) (c c' : t) (l : list IntelHDAStream.t)
      (s : IntelHDAStream.t) :
  tags_inv (mk_session c l) ->
  AllocateStream ty c = Done (Some s, c') ->
  tags_inv (mk_session c' (s :: l)).
Proof.
  intros Hinv Ha input. destruct (Hinv input) as [Hnd Hbits].
  cbn [ctl outstanding] in *.
  destruct (AllocateStream_success ty c c' s Ha)
    as (Hty & s0 & rest & tag & _ & (Ht & Hb & _) & -> & ->).
  rewrite outstanding_tags_cons, tag_pool_assign. cbn [Configure configured_type_ tag_].
  assert (Hdir : Type_eqb ty (direction input) = Bool.eqb (Type_eqb ty INPUT) input)
    by (destruct Hty as [-> | ->], input; reflexivity).
  rewrite Hdir.
  destruct (Bool.eqb (Type_eqb ty INPUT) input) eqn:He.
  - apply Bool.eqb_prop in He. rewrite He in *.
    rewrite tag_pool_set_same.
    assert (Hfresh : ~ In tag (outstanding_tags input l)).
    { intros Hin. destruct (Hbits tag Hin) as [_ Hf]. congruence. }
    split; [constructor; assumption|].
    intros tg [<- | Hin]; unfold without_tag.
    + split; [lia|]. rewrite testbit_clear, Z.eqb_refl by lia.
      apply andb_false_r.
    + destruct (Hbits tg Hin) as [Hr Hf]. split; [lia|].
      rewrite testbit_clear, Hf, andb_false_r by lia. reflexivity.
  - apply Bool.eqb_false_iff in He.
    replace input with (negb (Type_eqb ty INPUT))
      by (destruct (Type_eqb ty INPUT), input; simpl; congruence).
    rewrite tag_pool_set_other.
    replace (negb (Type_eqb ty INPUT)) with input
      by (destruct (Type_eqb ty INPUT), input; simpl; congruence).
    split; assumption.
Qed.

Lemma tags_inv_call (x : Call) (se : Session) :
  tags_inv se -> tags_inv (call x se).
Proof.
  intros Hinv. destruct se as [c l]. destruct x as [ty | k]; cbn [call ctl outstanding].
  - destruct (AllocateStream ty c) as [[[s|] c'] |] eqn:Ha.
    + eapply tags_inv_allocate; eassumption.
    + rewrite (AllocateStream_none ty c c' Ha). exact Hinv.
    + exact Hinv.
  - destruct (nth_error l k) as [s|] eqn:Hk; [|exact Hinv].
    destruct (ReturnStream (Some s) c) as [c'|] eqn:Hr; [|exact Hinv].
    eapply tags_inv_return; [exact Hinv | exact Hk |].
    apply (ReturnStream_tag_pools _ _ _ Hr).
Qed.

(** X16.  Start with nothing checked out and make any sequence of calls:
    within each direction the tags of the contexts checked out are pairwise
    different, each lies in 1..15, and the bit of each is cleared in that
    direction's tag pool. *)
Theorem outstanding_tags_unique (calls : list Call) (c : t) :
  let se := run calls (mk_session c []) in
  forall input,
    NoDup (outstanding_tags input (outstanding se))
    /\ forall tg, In tg (outstanding_tags input (outstanding se)) ->
         1 <= tg <= 15 /\ Z.testbit (tag_pool input (ctl se)) tg = false.
Proof.
  assert (Hrun : forall calls se, tags_inv se -> tags_inv (run calls se)).
  { clear. induction calls as [|x calls IH]; intros se Hinv; simpl.
    - exact Hinv.
    - apply IH. apply tags_inv_call. exact Hinv. }
  apply (Hrun calls (mk_session c [])).
  intros input. split; [constructor | intros tg []].
Qed.

(** ** C5 and C6: client requests *)

Section DispatchProperties.

Variable ihda_cmd_hdr_t : Type.
Variable cmd : ihda_cmd_hdr_t -> Z.
Variables sizeof_hdr sizeof_get_ids sizeof_snapshot_regs : Z.
Variables IHDA_CMD_GET_IDS IHDA_CONTROLLER_CMD_SNAPSHOT_REGS : Z.
Variable SnapshotRegs :
  Channel ihda_cmd_hdr_t -> RequestBuffer ihda_cmd_hdr_t -> t ->
  zx_status_t * Channel ihda_cmd_hdr_t.

Local Abbreviation process :=
  (ProcessClientRequest ihda_cmd_hdr_t cmd sizeof_hdr sizeof_get_ids
     sizeof_snapshot_regs IHDA_CMD_GET_IDS IHDA_CONTROLLER_CMD_SNAPSHOT_REGS
     SnapshotRegs).
Local Abbreviation expected :=
  (expected_size sizeof_get_ids sizeof_snapshot_regs
     IHDA_CMD_GET_IDS IHDA_CONTROLLER_CMD_SNAPSHOT_REGS).

(** C5.  A request that was read successfully is rejected with
    [ZX_ERR_INVALID_ARGS], and the channel is handed back as it was, with
    no message written to it, in each of these cases, tried in this
    order: fewer bytes were read than a header has; the header is there,
    its command id is a known one and the size read differs from the
    fixed size of that command; the header is there and its command id is
    not a known one. *)
Theorem ProcessClientRequest_rejects_malformed
        (ch : Channel ihda_cmd_hdr_t) (c : t)
        (req_size : Z) (req : RequestBuffer ihda_cmd_hdr_t) :
  next_read ch = (ZX_OK, req_size, req) ->
  req_size < sizeof_hdr
  \/ (sizeof_hdr <= req_size
      /\ exists n, expected (cmd (hdr req)) = Some n /\ req_size <> n)
  \/ (sizeof_hdr <= req_size /\ expected (cmd (hdr req)) = None) ->
  process (Some ch) c = Done (ZX_ERR_INVALID_ARGS, Some ch).
Proof.
  intros Hread Hbad.
  unfold ProcessClientRequest, Read.
  cbn [is_some ZX_DEBUG_ASSERT bind]. rewrite Hread. cbn [Z.eqb ZX_OK negb].
  destruct Hbad as [Hshort | [(Hlen & n & Hexp & Hne) | (Hlen & Hexp)]].
  - replace (req_size <? sizeof_hdr) with true
      by (symmetry; apply Z.ltb_lt; exact Hshort).
    reflexivity.
  - replace (req_size <? sizeof_hdr) with false
      by (symmetry; apply Z.ltb_ge; exact Hlen).
    unfold expected_size in Hexp.
    destruct (cmd (hdr req) =? IHDA_CMD_GET_IDS).
    + injection Hexp as <-.
      replace (req_size =? sizeof_get_ids) with false
        by (symmetry; apply Z.eqb_neq; exact Hne).
      reflexivity.
    + destruct (cmd (hdr req) =? IHDA_CONTROLLER_CMD_SNAPSHOT_REGS);
        [|discriminate Hexp].
      injection Hexp as <-.
      replace (req_size =? sizeof_snapshot_regs) with false
        by (symmetry; apply Z.eqb_neq; exact Hne).
      reflexivity.
  - replace (req_size <? sizeof_hdr) with false
      by (symmetry; apply Z.ltb_ge; exact Hlen).
    unfold expected_size in Hexp.
    destruct (cmd (hdr req) =? IHDA_CMD_GET_IDS); [discriminate Hexp|].
    destruct (cmd (hdr req) =? IHDA_CONTROLLER_CMD_SNAPSHOT_REGS);
      [discriminate Hexp | reflexivity].
Qed.

(** C6.  On a controller whose PCI device and register window are set
    up, a GET_IDS request of exactly the GET_IDS size makes
    [ProcessClientRequest] hand exactly one message to [Write] on the
    channel it read from and return the status of that write.  The
    message is a GET_IDS response whose header is the request's header,
    whose vendor and device ids are those of the controller's PCI device
    info, whose major and minor version are the values of the [vmaj] and
    [vmin] registers at the call, and whose revision and stepping ids
    are 0. *)
Theorem GET_IDS_single_reply
        (ch : Channel ihda_cmd_hdr_t) (c : t)
        (req : RequestBuffer ihda_cmd_hdr_t)
        (dev : Z) (regs : hda_registers_t) :
  next_read ch = (ZX_OK, sizeof_get_ids, req) ->
  sizeof_hdr <= sizeof_get_ids ->
  cmd (hdr req) = IHDA_CMD_GET_IDS ->
  pci_dev_ c = Some dev ->
  regs_ c = Some regs ->
  exists resp,
    process (Some ch) c
    = Done (next_write ch,
            Some (mk_chan (next_read ch) (next_write ch)
                          (writes ch ++ [get_ids_resp resp])))
    /\ resp_hdr resp = hdr req
    /\ vid resp = vendor_id (pci_dev_info_ c)
    /\ did resp = device_id (pci_dev_info_ c)
    /\ ihda_vmaj resp = REG_RD (vmaj regs)
    /\ ihda_vmin resp = REG_RD (vmin regs)
    /\ rev_id resp = 0
    /\ step_id resp = 0.
Proof.
  intros Hread Hsize Hcmd Hdev Hregs.
  eexists. split.
  - unfold ProcessClientRequest, Read, Write.
    cbn [is_some ZX_DEBUG_ASSERT bind]. rewrite Hread. cbn [Z.eqb ZX_OK negb].
    replace (sizeof_get_ids <? sizeof_hdr) with false
      by (symmetry; apply Z.ltb_ge; exact Hsize).
    rewrite Hcmd, !Z.eqb_refl, Hdev, Hregs.
    cbn [is_some ZX_DEBUG_ASSERT bind negb]. reflexivity.
  - cbn. repeat split; reflexivity.
Qed.

End DispatchProperties.

(** ** C7: the destructor's assertion *)

Lemma State_eqb_eq (a b : State) : State_eqb a b = true <-> a = b.
Proof. destruct a, b; simpl; split; congruence. Qed.

(** C7.  The condition the destructor asserts first is true exactly when
    the state is STARTING or SHUT_DOWN; when it is false, and so in the
    states OPERATING and SHUTTING_DOWN, the destructor ends in an assertion
    failure.  A controller that has just been constructed is in STARTING and
    its destructor runs to its end without tripping any assertion. *)
Theorem destructor_assertion (c : t) (device_id_gen_ : Z) :
  (dtor_state_assert c = true <->
   GetState c = STARTING \/ GetState c = SHUT_DOWN)
  /\ (dtor_state_assert c = false -> dtor c = AssertFailed)
  /\ (GetState c = OPERATING \/ GetState c = SHUTTING_DOWN ->
      dtor c = AssertFailed)
  /\ GetState (fst (ctor device_id_gen_)) = STARTING
  /\ dtor (fst (ctor device_id_gen_))
     = Done ([EvReleaseCmdBuf; EvReleaseBdl], fst (ctor device_id_gen_)).
Proof.
  assert (Hiff : dtor_state_assert c = true <->
                 GetState c = STARTING \/ GetState c = SHUT_DOWN).
  { unfold dtor_state_assert. rewrite orb_true_iff, !State_eqb_eq. reflexivity. }
  assert (Hfail : dtor_state_assert c = false -> dtor c = AssertFailed).
  { intros Hf. unfold dtor, andthen at 1, assert_that. rewrite Hf. reflexivity. }
  split; [exact Hiff|]. split; [exact Hfail|].
  split; [|split; reflexivity].
  intros Hst. apply Hfail. unfold dtor_state_assert.
  destruct Hst as [-> | ->]; reflexivity.
Qed.

(** ** C8: the unbind sequence *)

(** C8.  [DeviceShutdown] always completes, and what it does is seen in
    this order: the client-facing channels are deactivated first; then, if
    the interrupt thread was started, the state is set to SHUTTING_DOWN, the
    thread is woken, the thread sets the state to SHUT_DOWN and the join
    returns, so that the state after the join is SHUT_DOWN and the thread
    is no longer marked as started; if the thread was not started, nothing
    else happens and the state is kept.  When the thread runs only before
    the shutdown has begun, every store to the state goes strictly forward
    in STARTING, OPERATING, SHUTTING_DOWN, SHUT_DOWN, the same holds for the
    controller that is left, and a controller in SHUT_DOWN stays in
    SHUT_DOWN with no store to the state at all. *)
Theorem DeviceShutdown_sequence (c : t) :
  exists tr c',
    DeviceShutdown c = Done (tr, c')
    /\ default_domain_active c' = false
    /\ irq_thread_started_ c' = false
    /\ (irq_thread_started_ c = true ->
        tr = [EvDeactivate; EvStateWrite SHUTTING_DOWN; EvWakeupIRQThread;
              EvStateWrite SHUT_DOWN; EvThreadJoin]
        /\ GetState c' = SHUT_DOWN)
    /\ (irq_thread_started_ c = false ->
        tr = [EvDeactivate] /\ GetState c' = GetState c)
    /\ (thread_runs_before_shutdown c ->
        forward_only (GetState c) tr = true
        /\ thread_runs_before_shutdown c'
        /\ (GetState c = SHUT_DOWN ->
            tr = [EvDeactivate] /\ GetState c' = SHUT_DOWN)).
Proof.
  unfold thread_runs_before_shutdown.
  destruct c as [st id rh ih pci pd pdi regs fi fo fb ti to started active].
  cbn [irq_thread_started_ state_ GetState].
  destruct started; do 2 eexists; (split; [vm_compute; reflexivity|]); cbn.
  - repeat split; try discriminate; try reflexivity.
    + match goal with H : true = true -> _ |- _ =>
        destruct (H eq_refl) as [-> | ->]; reflexivity end.
    + match goal with H : true = true -> _ |- _ =>
        destruct (H eq_refl) as [-> | ->]; discriminate end.
  - repeat split; try discriminate; try reflexivity; try assumption.
Qed.

(** ** C10: driver bind *)

Section BindProperties.

Variable zx_device_t : Type.
Variable Init : zx_device_t -> t -> zx_status_t * t.

Local Abbreviation bind_driver := (DriverBind zx_device_t Init).

(** C10.  [DriverBind] with a null [cookie] returns [ZX_ERR_INVALID_ARGS],
    leaves the id generator where it was (no controller was constructed)
    and holds no controller.  With a cookie it constructs one controller,
    runs [Init] on it and returns the status of [Init] as it is; the
    controller is written into the cookie and its reference is kept
    (leaked to the framework) exactly when that status is [ZX_OK];
    otherwise the cookie keeps what it held and the reference taken at
    construction is dropped when the call returns. *)
Theorem DriverBind_cookie (device_id_gen_ : Z) (device : zx_device_t)
        (slot : option t) :
  let fresh := fst (ctor device_id_gen_) in
  let r := bind_driver device_id_gen_ device (Some slot) in
  bind_driver device_id_gen_ device None
  = mk_bind ZX_ERR_INVALID_ARGS None device_id_gen_ None
  /\ bind_ret r = fst (Init device fresh)
  /\ bind_device_id_gen r = snd (ctor device_id_gen_)
  /\ (fst (Init device fresh) = ZX_OK ->
      bind_cookie r = Some (Some (snd (Init device fresh)))
      /\ bind_dropped r = None)
  /\ (fst (Init device fresh) <> ZX_OK ->
      bind_cookie r = Some slot
      /\ bind_dropped r = Some (snd (Init device fresh)))
  /\ (bind_dropped r = None <-> bind_ret r = ZX_OK).
Proof.
  intros fresh r. subst r. unfold DriverBind.
  change (ctor device_id_gen_) with (fresh, snd (ctor device_id_gen_)).
  cbn [fst snd]. destruct (Init device fresh) as [ret obj]. cbn [fst snd].
  destruct (Z.eqb_spec ret ZX_OK) as [Heq | Hne]; cbn.
  - repeat split; try reflexivity; try assumption; try congruence.
  - repeat split; try reflexivity; try assumption; try congruence.
Qed.

End BindProperties.

(* ================================================================== *)
(** * The properties at sample states *)
(* ================================================================== *)

Lemma only_bidir_context_classified : pools_classified only_bidir_context.
Proof.
  intros p s. destruct p; simpl; intros H; try contradiction.
  destruct H as [<- | []]. reflexivity.
Defined.

(** An input request served from the bidirectional list, then returned:
    the context is back in the bidirectional list. *)
Lemma ReturnStream_original_pool_witness :
  let s := IntelHDAStream.mk 7 BIDIR INPUT 1 in
  let c1 := set_tag_pool true 65532 (fst (ctor 0)) in
  AllocateStream INPUT only_bidir_context = Done (Some s, c1)
  /\ type_ s <> INVALID
  /\ exists c',
       ReturnStream (Some s) c1 = Done c'
       /\ In (Configure INVALID 0 s) (free_bidir_streams_ c')
       /\ free_input_streams_ c' = free_input_streams_ c1.
Proof.
  intros s c1.
  assert (Ha : AllocateStream INPUT only_bidir_context = Done (Some s, c1))
    by (vm_compute; reflexivity).
  assert (Hs : type_ s <> INVALID) by (simpl; discriminate).
  split; [exact Ha|]. split; [exact Hs|].
  destruct (ReturnStream_original_pool s c1 Hs)
    as [(c' & Hr & _ & _ & _ & _ & Halloc) _].
  exists c'. split; [exact Hr|].
  destruct (Halloc INPUT only_bidir_context only_bidir_context_classified Ha)
    as (_ & _ & Hb).
  destruct (Hb eq_refl) as (_ & Hin & Hi & _).
  split; assumption.
Defined.

Lemma AllocateStream_cases_witness :
  (INPUT = INPUT \/ INPUT = OUTPUT)
  /\ AllocateStream INPUT only_bidir_context
     = Done (Some (Configure INPUT 1 bidir_context),
             assign free_bidir_streams []
               (set_tag_pool true (without_tag 65534 1) only_bidir_context)).
Proof.
  split; [left; reflexivity|].
  destruct (AllocateStream_cases INPUT only_bidir_context (or_introl eq_refl))
    as (_ & _ & _ & H & _).
  apply (H bidir_context [] 1).
  - reflexivity.
  - split; [lia|]. split; [reflexivity|]. intros j Hj. lia.
Defined.

(** With the input tags 1 and 3 in use, tag 1 is released and the next
    allocation returns it. *)
Lemma tag_alloc_lowest_and_release_witness :
  is_uint16 (tag_pool true tags_1_3_in_use)
  /\ exists c2,
       ReleaseStreamTagLocked true 1 tags_1_3_in_use = Done c2
       /\ fst (AllocateStreamTagLocked true c2) = 1.
Proof.
  assert (Hu : is_uint16 (tag_pool true tags_1_3_in_use))
    by (unfold is_uint16; simpl; lia).
  split; [exact Hu|].
  destruct (tag_alloc_lowest_and_release true tags_1_3_in_use Hu) as [_ Hrel].
  destruct (Hrel 1 ltac:(lia) eq_refl) as (c2 & Hr & _ & _ & _ & Hexact).
  exists c2. split; [exact Hr|].
  apply Hexact. intros j Hj. lia.
Defined.

Lemma AllocateStream_failure_unchanged_witness :
  no_free_tag (tag_pool true input_tags_exhausted)
  /\ exists c1,
       AllocateStream INPUT input_tags_exhausted = Done (None, c1)
       /\ free_input_streams_ c1 = [IntelHDAStream.mk 0 INPUT INVALID 0].
Proof.
  assert (Hn : no_free_tag (tag_pool true input_tags_exhausted))
    by (intros j Hj; apply Z.bits_0).
  split; [exact Hn|].
  destruct (AllocateStream_failure_unchanged INPUT input_tags_exhausted
              input_tags_exhausted) as [_ H].
  apply (H (IntelHDAStream.mk 0 INPUT INVALID 0) []).
  - left. reflexivity.
  - reflexivity.
  - exact Hn.
Defined.

(** A request of four bytes, fewer than the eight of a header. *)
Lemma ProcessClientRequest_rejects_malformed_witness :
  let ch := mk_chan (ZX_OK, 4, mk_req 4096) ZX_OK [] in
  next_read ch = (ZX_OK, 4, mk_req 4096)
  /\ 4 < 8
  /\ sample_process (Some ch) operating_controller
     = Done (ZX_ERR_INVALID_ARGS, Some ch).
Proof.
  intros ch. split; [reflexivity|]. split; [lia|].
  apply (ProcessClientRequest_rejects_malformed Z (fun h => h) 8 8 8 4096 8192
           sample_snapshot ch operating_controller 4 (mk_req 4096)).
  - reflexivity.
  - left. lia.
Defined.

Lemma GET_IDS_single_reply_witness :
  let ch := mk_chan (ZX_OK, 8, mk_req 4096) ZX_OK [] in
  exists resp,
    sample_process (Some ch) operating_controller
    = Done (ZX_OK, Some (mk_chan (ZX_OK, 8, mk_req 4096) ZX_OK [get_ids_resp resp]))
    /\ resp_hdr resp = 4096
    /\ vid resp = 32902
    /\ did resp = 40304
    /\ ihda_vmaj resp = 1
    /\ ihda_vmin resp = 0.
Proof.
  intros ch.
  destruct (GET_IDS_single_reply Z (fun h => h) 8 8 8 4096 8192 sample_snapshot
              ch operating_controller (mk_req 4096) 3 (mk_regs 0 1)
              eq_refl ltac:(lia) eq_refl eq_refl eq_refl)
    as (resp & Hp & Hh & Hv & Hd & Hmaj & Hmin & _).
  exists resp. repeat split; assumption.
Defined.

Lemma destructor_assertion_witness :
  dtor_state_assert operating_controller = false
  /\ dtor operating_controller = AssertFailed.
Proof.
  split; [reflexivity|].
  destruct (destructor_assertion operating_controller 0) as (_ & H & _).
  apply H. reflexivity.
Defined.

Lemma DeviceShutdown_sequence_witness :
  thread_runs_before_shutdown operating_controller
  /\ exists tr c',
       DeviceShutdown operating_controller = Done (tr, c')
       /\ forward_only (GetState operating_controller) tr = true
       /\ GetState c' = SHUT_DOWN.
Proof.
  assert (Hinv : thread_runs_before_shutdown operating_controller)
    by (intros _; right; reflexivity).
  split; [exact Hinv|].
  destruct (DeviceShutdown_sequence operating_controller)
    as (tr & c' & Hd & _ & _ & Hstarted & _ & Hfwd).
  exists tr, c'. split; [exact Hd|].
  split; [apply (Hfwd Hinv) | apply (Hstarted eq_refl)].
Defined.

Lemma DriverBind_cookie_witness :
  fst (init_ok tt (fst (ctor 5))) = ZX_OK
  /\ fst (init_fails tt (fst (ctor 5))) <> ZX_OK
  /\ bind_cookie (DriverBind unit init_ok 5 tt (Some None))
     = Some (Some (SetState OPERATING (fst (ctor 5))))
  /\ bind_cookie (DriverBind unit init_fails 5 tt (Some None)) = Some None.
Proof.
  assert (Hok : fst (init_ok tt (fst (ctor 5))) = ZX_OK) by reflexivity.
  assert (Hko : fst (init_fails tt (fst (ctor 5))) <> ZX_OK) by (simpl; discriminate).
  split; [exact Hok|]. split; [exact Hko|]. split.
  - destruct (DriverBind_cookie unit init_ok 5 tt None) as (_ & _ & _ & H & _).
    apply (H Hok).
  - destruct (DriverBind_cookie unit init_fails 5 tt None) as (_ & _ & _ & _ & H & _).
    apply (H Hko).
Defined.

(* ================================================================== *)
(** * Further properties of the stream tags *)
(* ================================================================== *)

Lemma set_tag_pool_twice (input : bool) (a b : Z) (c : t) :
  set_tag_pool input a (set_tag_pool input b c) = set_tag_pool input a c.
Proof. destruct input; reflexivity. Qed.

(** The two ways [ReleaseStreamTagLocked] can end. *)
Lemma ReleaseStreamTagLocked_dec (input : bool) (tag : Z) (c : t) :
  (1 <= tag <= 15 /\ Z.testbit (tag_pool input c) tag = false
   /\ ReleaseStreamTagLocked input tag c
      = Done (set_tag_pool input
                (static_cast_uint16 (Z.lor (tag_pool input c) (shl1u tag))) c))
  \/ ((tag < 1 \/ 15 < tag \/ Z.testbit (tag_pool input c) tag = true)
      /\ ReleaseStreamTagLocked input tag c = AssertFailed).
Proof.
  unfold ReleaseStreamTagLocked.
  destruct (Z.ltb_spec 0 tag) as [Hlo | Hlo]; cbn [andb].
  - destruct (Z.leb_spec tag 15) as [Hhi | Hhi]; cbn [ZX_DEBUG_ASSERT bind].
    + rewrite land_shl1u_eq0 by lia.
      destruct (Z.testbit (tag_pool input c) tag) eqn:Hb; cbn [negb ZX_DEBUG_ASSERT bind].
      * right. auto.
      * left. repeat split; lia || reflexivity.
    + right. split; [lia | reflexivity].
  - right. split; [lia | reflexivity].
Qed.

Lemma without_tag_restored (pool tag : Z) :
  is_uint16 pool -> 1 <= tag <= 15 -> Z.testbit pool tag = true ->
  static_cast_uint16 (Z.lor (without_tag pool tag) (shl1u tag)) = pool.
Proof.
  intros Hu Ht Hb. apply Z.bits_inj'. intros i Hi.
  unfold without_tag. rewrite testbit_set, testbit_clear by lia.
  destruct (Z.ltb_spec i 16) as [Hlt | Hge]; cbn [andb].
  - destruct (Z.eqb_spec i tag) as [-> | Hne]; cbn [negb].
    + rewrite Hb. reflexivity.
    + rewrite andb_true_r, orb_false_r. reflexivity.
  - symmetry. apply uint16_high_bits; assumption.
Qed.

(** X1.  Over a 16-bit pool, giving back the tag that
    [AllocateStreamTagLocked] just returned passes both assertions of
    [ReleaseStreamTagLocked] and leaves the controller exactly as it was
    before the allocation. *)
Theorem tag_alloc_then_release_restores (input : bool) (c : t) :
  is_uint16 (tag_pool input c) ->
  fst (AllocateStreamTagLocked input c) <> 0 ->
  ReleaseStreamTagLocked input
    (fst (AllocateStreamTagLocked input c))
    (snd (AllocateStreamTagLocked input c))
  = Done c.
Proof.
  intros Hu Hr.
  destruct (AllocateStreamTagLocked_dec input c)
    as [[_ Ha] | (tag & (Ht & Hb & _) & Ha)]; rewrite Ha in *; cbn [fst snd] in *.
  - congruence.
  - destruct (ReleaseStreamTagLocked_dec input tag
                (set_tag_pool input (without_tag (tag_pool input c) tag) c))
      as [(_ & _ & Hrel) | ([Hlo | [Hhi | Hset]] & _)]; try lia.
    + rewrite Hrel, tag_pool_set_same, set_tag_pool_twice.
      rewrite without_tag_restored by assumption.
      rewrite set_tag_pool_id. reflexivity.
    + rewrite tag_pool_set_same in Hset. unfold without_tag in Hset.
      rewrite testbit_clear, Z.eqb_refl, andb_false_r in Hset by lia.
      discriminate.
Qed.

Lemma tag_alloc_then_release_restores_witness :
  is_uint16 (tag_pool true tags_1_3_in_use)
  /\ fst (AllocateStreamTagLocked true tags_1_3_in_use) <> 0
  /\ ReleaseStreamTagLocked true 2
       (snd (AllocateStreamTagLocked true tags_1_3_in_use))
     = Done tags_1_3_in_use.
Proof.
  assert (Hu : is_uint16 (tag_pool true tags_1_3_in_use))
    by (unfold is_uint16; simpl; lia).
  assert (Hr : fst (AllocateStreamTagLocked true tags_1_3_in_use) <> 0)
    by (vm_compute; discriminate).
  split; [exact Hu|]. split; [exact Hr|].
  exact (tag_alloc_then_release_restores true tags_1_3_in_use Hu Hr).
Defined.

(** X2.  [ReleaseStreamTagLocked] completes only for a tag in 1..15 whose
    bit is clear.  A tag outside 1..15 trips its first assertion, and a
    tag that was just released cannot be released again: the second
    release trips the assertion that the bit is clear. *)
Theorem tag_release_twice_asserts (input : bool) (tag : Z) (c : t) :
  ((tag < 1 \/ 15 < tag) -> ReleaseStreamTagLocked input tag c = AssertFailed)
  /\ (forall c1,
        ReleaseStreamTagLocked input tag c = Done c1 ->
        1 <= tag <= 15
        /\ Z.testbit (tag_pool input c) tag = false
        /\ Z.testbit (tag_pool input c1) tag = true
        /\ ReleaseStreamTagLocked input tag c1 = AssertFailed).
Proof.
  split.
  - intros Hout.
    destruct (ReleaseStreamTagLocked_dec input tag c) as [(Ht & _) | (_ & H)];
      [lia | exact H].
  - intros c1 H1.
    destruct (ReleaseStreamTagLocked_dec input tag c) as [(Ht & Hb & H) | (_ & H)];
      rewrite H in H1; [|discriminate].
    injection H1 as <-.
    assert (Hset : Z.testbit
                     (tag_pool input
                        (set_tag_pool input
                           (static_cast_uint16 (Z.lor (tag_pool input c) (shl1u tag))) c))
                     tag = true).
    { rewrite tag_pool_set_same, testbit_set, Z.eqb_refl, orb_true_r by lia.
      apply andb_true_iff. split; [apply Z.ltb_lt; lia | reflexivity]. }
    repeat split; try lia; try assumption.
    destruct (ReleaseStreamTagLocked_dec input tag
                (set_tag_pool input
                   (static_cast_uint16 (Z.lor (tag_pool input c) (shl1u tag))) c))
      as [(_ & Hb' & _) | (_ & H')]; [congruence | exact H'].
Qed.

Lemma tag_release_twice_asserts_witness :
  exists c1,
    ReleaseStreamTagLocked true 3 tags_1_3_in_use = Done c1
    /\ ReleaseStreamTagLocked true 3 c1 = AssertFailed.
Proof.
  eexists. split; [vm_compute; reflexivity|].
  destruct (tag_release_twice_asserts true 3 tags_1_3_in_use) as [_ H].
  apply (H _ eq_refl).
Defined.

(** *** Counting the free tags *)

Lemma all_tags_NoDup : NoDup all_tags.
Proof.
  unfold all_tags. apply Injective_map_NoDup.
  - intros a b. apply Nat2Z.inj.
  - apply seq_NoDup.
Qed.

Lemma In_all_tags (j : Z) : In j all_tags <-> 1 <= j <= 15.
Proof.
  unfold all_tags. rewrite in_map_iff. split.
  - intros (n & <- & Hn). apply in_seq in Hn. lia.
  - intros Hj. exists (Z.to_nat j). split; [lia | apply in_seq; lia].
Qed.

(** Two tests that differ on exactly one element of a list without
    repeats: the one that accepts it counts one more. *)
Lemma filter_one_more {A : Type} (f g : A -> bool) (r : A) (l : list A) :
  NoDup l -> In r l ->
  f r = true -> g r = false ->
  (forall x, In x l -> x <> r -> f x = g x) ->
  length (filter f l) = S (length (filter g l)).
Proof.
  intros Hnd. induction Hnd as [|x l Hx Hnd IH]; intros Hin Hf Hg Hagree.
  - destruct Hin.
  - destruct Hin as [-> | Hin]; simpl.
    + rewrite Hf, Hg. simpl. f_equal. f_equal.
      apply filter_ext_in. intros a Ha. apply Hagree; [right; exact Ha|].
      intros ->. contradiction.
    + assert (Hxr : x <> r) by (intros ->; contradiction).
      rewrite (Hagree x (or_introl eq_refl) Hxr).
      assert (IH' : length (filter f l) = S (length (filter g l))).
      { apply IH; try assumption. intros a Ha Hne. apply Hagree; [right|]; assumption. }
      destruct (g x); simpl; rewrite IH'; reflexivity.
Qed.

Lemma free_tags_zero (pool : Z) : free_tags pool = 0%nat <-> no_free_tag pool.
Proof.
  unfold free_tags, no_free_tag. split.
  - intros H0 j Hj. apply In_all_tags in Hj.
    destruct (Z.testbit pool j) eqn:Hb; [|reflexivity].
    assert (Hin : In j (filter (Z.testbit pool) all_tags))
      by (apply filter_In; split; assumption).
    destruct (filter (Z.testbit pool) all_tags); [destruct Hin | discriminate H0].
  - intros Hn.
    rewrite (filter_ext_in (Z.testbit pool) (fun _ => false) all_tags).
    + induction all_tags; simpl; auto.
    + intros j Hj. apply Hn. apply In_all_tags. exact Hj.
Qed.

Lemma free_tags_without (pool tag : Z) :
  1 <= tag <= 15 -> Z.testbit pool tag = true ->
  free_tags pool = S (free_tags (without_tag pool tag)).
Proof.
  intros Ht Hb. unfold free_tags.
  apply (filter_one_more _ _ tag).
  - apply all_tags_NoDup.
  - apply In_all_tags. exact Ht.
  - exact Hb.
  - unfold without_tag. rewrite testbit_clear, Z.eqb_refl by lia. apply andb_false_r.
  - intros j Hj Hne. apply In_all_tags in Hj.
    unfold without_tag. rewrite testbit_clear by lia.
    replace (j <? 16) with true by (symmetry; apply Z.ltb_lt; lia).
    replace (j =? tag) with false by (symmetry; apply Z.eqb_neq; exact Hne).
    cbn [andb negb]. rewrite andb_true_r. reflexivity.
Qed.

Lemma free_tags_with (pool tag : Z) :
  1 <= tag <= 15 -> Z.testbit pool tag = false ->
  free_tags (static_cast_uint16 (Z.lor pool (shl1u tag))) = S (free_tags pool).
Proof.
  intros Ht Hb. unfold free_tags.
  apply (filter_one_more _ _ tag).
  - apply all_tags_NoDup.
  - apply In_all_tags. exact Ht.
  - rewrite testbit_set, Z.eqb_refl, orb_true_r by lia.
    apply andb_true_iff. split; [apply Z.ltb_lt; lia | reflexivity].
  - exact Hb.
  - intros j Hj Hne. apply In_all_tags in Hj.
    rewrite testbit_set by lia.
    replace (j <? 16) with true by (symmetry; apply Z.ltb_lt; lia).
    replace (j =? tag) with false by (symmetry; apply Z.eqb_neq; exact Hne).
    cbn [andb]. rewrite orb_false_r. reflexivity.
Qed.

(** X3.  A direction never has more than 15 free tags.
    [AllocateStreamTagLocked] returns 0 exactly when the direction has no
    free tag; when it returns a tag the direction has exactly one free tag
    fewer, and a completed [ReleaseStreamTagLocked] leaves it with exactly
    one free tag more.  Neither changes the count of the other
    direction. *)
Theorem tag_ops_count (input : bool) (c : t) :
  let pool := tag_pool input c in
  let r := fst (AllocateStreamTagLocked input c) in
  let c1 := snd (AllocateStreamTagLocked input c) in
  (free_tags pool <= 15)%nat
  /\ (r = 0 <-> free_tags pool = 0%nat)
  /\ (r <> 0 -> free_tags pool = S (free_tags (tag_pool input c1)))
  /\ free_tags (tag_pool (negb input) c1) = free_tags (tag_pool (negb input) c)
  /\ (forall tag c2,
        ReleaseStreamTagLocked input tag c = Done c2 ->
        free_tags (tag_pool input c2) = S (free_tags pool)
        /\ free_tags (tag_pool (negb input) c2) = free_tags (tag_pool (negb input) c)).
Proof.
  cbv zeta.
  split.
  { unfold free_tags. etransitivity; [apply filter_length_le|].
    unfold all_tags. rewrite length_map, length_seq. apply le_n. }
  destruct (AllocateStreamTagLocked_dec input c)
    as [[Hn Ha] | (tag & (Ht & Hb & Hlow) & Ha)]; rewrite Ha; cbn [fst snd].
  - split; [split; [intros _; apply free_tags_zero; exact Hn | reflexivity]|].
    split; [congruence|]. split; [reflexivity|].
    intros tg c2 Hrel.
    destruct (ReleaseStreamTagLocked_dec input tg c) as [(Hr & Hclr & H) | (_ & H)];
      rewrite H in Hrel; [|discriminate].
    injection Hrel as <-. rewrite tag_pool_set_same, tag_pool_set_other.
    split; [apply free_tags_with; assumption | reflexivity].
  - split.
    { split; [lia|]. intros H0. apply free_tags_zero in H0.
      rewrite (H0 tag Ht) in Hb. discriminate. }
    split; [intros _; rewrite tag_pool_set_same; apply free_tags_without; assumption|].
    split; [rewrite tag_pool_set_other; reflexivity|].
    intros tg c2 Hrel.
    destruct (ReleaseStreamTagLocked_dec input tg c) as [(Hr & Hclr & H) | (_ & H)];
      rewrite H in Hrel; [|discriminate].
    injection Hrel as <-. rewrite tag_pool_set_same, tag_pool_set_other.
    split; [apply free_tags_with; assumption | reflexivity].
Qed.

(** X4.  The tag operations keep a pool a 16-bit value and never touch
    bit 0, which is not a tag: after [AllocateStreamTagLocked], and after
    a completed [ReleaseStreamTagLocked], the pool is still 16 bits wide
    and bit 0 is as before; an allocation sets no bit at all. *)
Theorem tag_ops_keep_bit0_and_width (input : bool) (c : t) :
  is_uint16 (tag_pool input c) ->
  let pool := tag_pool input c in
  let c1 := snd (AllocateStreamTagLocked input c) in
  is_uint16 (tag_pool input c1)
  /\ Z.testbit (tag_pool input c1) 0 = Z.testbit pool 0
  /\ (forall i, Z.testbit (tag_pool input c1) i = true -> Z.testbit pool i = true)
  /\ (forall tag c2,
        ReleaseStreamTagLocked input tag c = Done c2 ->
        is_uint16 (tag_pool input c2)
        /\ Z.testbit (tag_pool input c2) 0 = Z.testbit pool 0).
Proof.
  intros Hu pool c1. subst c1.
  assert (Hcast : forall z, is_uint16 (static_cast_uint16 z)).
  { intros z. unfold is_uint16, static_cast_uint16. apply Z.mod_pos_bound. lia. }
  assert (Hrel : forall tag c2,
             ReleaseStreamTagLocked input tag c = Done c2 ->
             is_uint16 (tag_pool input c2)
             /\ Z.testbit (tag_pool input c2) 0 = Z.testbit pool 0).
  { intros tg c2 H2.
    destruct (ReleaseStreamTagLocked_dec input tg c) as [(Hr & _ & H) | (_ & H)];
      rewrite H in H2; [|discriminate].
    injection H2 as <-. rewrite tag_pool_set_same. split; [apply Hcast|].
    rewrite testbit_set by lia.
    replace (0 =? tg) with false by (symmetry; apply Z.eqb_neq; lia).
    rewrite orb_false_r. reflexivity. }
  destruct (AllocateStreamTagLocked_dec input c)
    as [[_ Ha] | (tag & (Ht & _ & _) & Ha)]; rewrite Ha; cbn [fst snd].
  - split; [exact Hu|]. split; [reflexivity|]. split; [auto | exact Hrel].
  - rewrite tag_pool_set_same. fold pool.
    split; [apply Hcast|]. split; [|split; [|exact Hrel]].
    + unfold without_tag. rewrite testbit_clear by lia.
      replace (0 =? tag) with false by (symmetry; apply Z.eqb_neq; lia).
      cbn [Z.ltb andb negb]. rewrite andb_true_r. reflexivity.
    + intros i Hi.
      destruct (Z.lt_ge_cases i 0) as [Hneg | Hpos].
      * rewrite Z.testbit_neg_r in Hi by exact Hneg. discriminate.
      * unfold without_tag in Hi. rewrite testbit_clear in Hi by lia.
        apply andb_true_iff in Hi. destruct Hi as [Hi _].
        apply andb_true_iff in Hi. apply Hi.
Qed.

Lemma tag_ops_keep_bit0_and_width_witness :
  is_uint16 (tag_pool true tags_1_3_in_use)
  /\ is_uint16 (tag_pool true (snd (AllocateStreamTagLocked true tags_1_3_in_use)))
  /\ Z.testbit (tag_pool true (snd (AllocateStreamTagLocked true tags_1_3_in_use))) 0
     = false.
Proof.
  assert (Hu : is_uint16 (tag_pool true tags_1_3_in_use))
    by (unfold is_uint16; simpl; lia).
  split; [exact Hu|].
  destruct (tag_ops_keep_bit0_and_width true tags_1_3_in_use Hu) as (H1 & H2 & _).
  split; [exact H1 | exact H2].
Defined.

(* ================================================================== *)
(** * Further properties of the stream pool *)
(* ================================================================== *)

(** X5.  A stream that [AllocateStream] hands out was asked for as INPUT
    or OUTPUT and is configured as asked; its tag is the lowest tag that
    was free in the requested direction, and that tag is no longer free;
    it is the first context of the list the request was served from, with
    its identity and creation type, and that list has lost exactly this
    context.  The other free lists, the tags of the other direction and
    the lifecycle state are as they were. *)
Theorem AllocateStream_hands_out (ty : Type_) (c c' : t) (s : IntelHDAStream.t) :
  AllocateStream ty c = Done (Some s, c') ->
  let input := Type_eqb ty INPUT in
  let src := source ty c in
  (ty = INPUT \/ ty = OUTPUT)
  /\ configured_type_ s = ty
  /\ lowest_free_tag (tag_pool input c) (tag_ s)
  /\ Z.testbit (tag_pool input c') (tag_ s) = false
  /\ tag_pool (negb input) c' = tag_pool (negb input) c
  /\ (exists s0 rest,
        deref src c = s0 :: rest /\ deref src c' = rest
        /\ IntelHDAStream.id_ s = IntelHDAStream.id_ s0 /\ type_ s = type_ s0)
  /\ (forall q, q <> src -> deref q c' = deref q c)
  /\ GetState c' = GetState c.
Proof.
  intros Ha input src.
  destruct (AllocateStream_success ty c c' s Ha)
    as (Hty & s0 & rest & tag & Hd & Hl & -> & ->).
  fold input src in Hd, Hl |- *. cbn [Configure configured_type_ tag_ type_].
  split; [exact Hty|]. split; [reflexivity|]. split; [exact Hl|].
  split.
  { rewrite tag_pool_assign, tag_pool_set_same. unfold without_tag.
    destruct Hl as (Ht & _).
    rewrite testbit_clear, Z.eqb_refl by lia. apply andb_false_r. }
  split; [rewrite tag_pool_assign; apply tag_pool_set_other|].
  split.
  { exists s0, rest. split; [exact Hd|]. split; [apply deref_assign_same|].
    split; reflexivity. }
  split.
  { intros q Hq. rewrite deref_assign_other by congruence.
    apply deref_set_tag_pool. }
  destruct src, input; reflexivity.
Qed.

Lemma AllocateStream_hands_out_witness :
  AllocateStream INPUT only_bidir_context
  = Done (Some (IntelHDAStream.mk 7 BIDIR INPUT 1),
          set_tag_pool true 65532 (fst (ctor 0)))
  /\ lowest_free_tag (tag_pool true only_bidir_context) 1
  /\ free_bidir_streams_ (set_tag_pool true 65532 (fst (ctor 0))) = [].
Proof.
  assert (Ha : AllocateStream INPUT only_bidir_context
               = Done (Some (IntelHDAStream.mk 7 BIDIR INPUT 1),
                       set_tag_pool true 65532 (fst (ctor 0))))
    by (vm_compute; reflexivity).
  split; [exact Ha|].
  destruct (AllocateStream_hands_out _ _ _ _ Ha)
    as (_ & _ & Hl & _ & _ & (s0 & rest & Hd & Hd' & _) & _).
  split; [exact Hl|]. reflexivity.
Defined.

(** *** Allocate, then return *)

Lemma insert_front (s : IntelHDAStream.t) (rest : Tree) :
  key_sorted (s :: rest) -> insert s rest = s :: rest.
Proof.
  intros Hs. inversion Hs as [|x l Hrest Hhd]; subst.
  destruct rest as [|y rest']; [reflexivity|].
  inversion Hhd as [|b l Hlt]; subst. simpl.
  replace (GetKey s <? GetKey y) with true by (symmetry; apply Z.ltb_lt; exact Hlt).
  reflexivity.
Qed.

Lemma Configure_parked (ty : Type_) (tag : Z) (s : IntelHDAStream.t) :
  parked s -> Configure INVALID 0 (Configure ty tag s) = s.
Proof.
  destruct s as [i t0 ct tg]. unfold parked, Configure. simpl.
  intros [-> ->]. reflexivity.
Qed.

Lemma assign_deref_id (p : TreePtr) (c : t) : assign p (deref p c) c = c.
Proof. destruct c, p; reflexivity. Qed.

Lemma assign_twice (p : TreePtr) (a b : Tree) (c : t) :
  assign p a (assign p b c) = assign p a c.
Proof. destruct p; reflexivity. Qed.

Lemma assign_set_tag_pool (p : TreePtr) (a : Tree) (input : bool) (v : Z) (c : t) :
  assign p a (set_tag_pool input v c) = set_tag_pool input v (assign p a c).
Proof. destruct p, input; reflexivity. Qed.

(** X6.  When the free list a request is served from is in strictly
    increasing key order, holds contexts of its own class and its first
    context is parked (configured as nothing, tag 0), returning the stream
    that [AllocateStream] just handed out puts that context back where it
    was: the controller after the return is the controller before the
    allocation except for one thing, the bit of the allocated tag, which
    stays cleared. *)
Theorem allocate_then_return (ty : Type_) (c c1 : t) (s : IntelHDAStream.t) :
  AllocateStream ty c = Done (Some s, c1) ->
  pools_classified c ->
  key_sorted (deref (source ty c) c) ->
  (forall x, In x (deref (source ty c) c) -> parked x) ->
  ReturnStream (Some s) c1
  = Done (set_tag_pool (Type_eqb ty INPUT)
            (without_tag (tag_pool (Type_eqb ty INPUT) c) (tag_ s)) c).
Proof.
  intros Ha Hcl Hsorted Hparked.
  destruct (AllocateStream_success ty c c1 s Ha)
    as (Hty & s0 & rest & tag & Hd & Hl & -> & ->).
  assert (Hin : In s0 (deref (source ty c) c)) by (rewrite Hd; left; reflexivity).
  assert (Hhome : home (Configure ty tag s0) = source ty c).
  { apply home_class. cbn [Configure type_]. apply Hcl. exact Hin. }
  assert (Hs : type_ (Configure ty tag s0) <> INVALID).
  { cbn [Configure type_]. rewrite (Hcl _ _ Hin).
    destruct (source ty c); discriminate. }
  rewrite ReturnStream_eq by exact Hs. rewrite Hhome.
  rewrite deref_assign_same, assign_twice.
  rewrite (Configure_parked ty tag s0 (Hparked s0 Hin)).
  rewrite insert_front by (rewrite <- Hd; exact Hsorted).
  rewrite <- Hd, assign_set_tag_pool, assign_deref_id.
  reflexivity.
Qed.

Lemma allocate_then_return_witness :
  AllocateStream INPUT only_bidir_context
  = Done (Some (IntelHDAStream.mk 7 BIDIR INPUT 1),
          set_tag_pool true 65532 (fst (ctor 0)))
  /\ ReturnStream (Some (IntelHDAStream.mk 7 BIDIR INPUT 1))
       (set_tag_pool true 65532 (fst (ctor 0)))
     = Done (set_tag_pool true (without_tag 65534 1) only_bidir_context).
Proof.
  assert (Ha : AllocateStream INPUT only_bidir_context
               = Done (Some (IntelHDAStream.mk 7 BIDIR INPUT 1),
                       set_tag_pool true 65532 (fst (ctor 0))))
    by (vm_compute; reflexivity).
  split; [exact Ha|].
  apply (allocate_then_return INPUT only_bidir_context _ _ Ha).
  - intros p x. destruct p; simpl; intros H; try contradiction.
    destruct H as [<- | []]. reflexivity.
  - repeat constructor.
  - intros x [<- | []]. split; reflexivity.
Defined.

(** *** No context is lost or duplicated *)

Lemma ids_insert (x : IntelHDAStream.t) (tr : Tree) :
  Permutation (ids (insert x tr)) (IntelHDAStream.id_ x :: ids tr).
Proof.
  induction tr as [|y tr IH]; simpl.
  - apply Permutation_refl.
  - destruct (GetKey x <? GetKey y); simpl.
    + apply Permutation_refl.
    + eapply perm_trans; [apply perm_skip; exact IH | apply perm_swap].
Qed.

Lemma pool_ids_pop (p : TreePtr) (c : t) (x : IntelHDAStream.t) (rest : Tree)
      (input : bool) (v : Z) :
  deref p c = x :: rest ->
  Permutation (pool_ids c)
    (IntelHDAStream.id_ x :: pool_ids (assign p rest (set_tag_pool input v c))).
Proof.
  intros Hd. unfold pool_ids.
  destruct p; simpl in Hd;
    cbn [assign set_tag_pool free_input_streams_ free_output_streams_
         free_bidir_streams_]; rewrite Hd; simpl ids.
  - apply Permutation_refl.
  - apply Permutation_sym. apply Permutation_middle.
  - rewrite !app_assoc. apply Permutation_sym.
    apply (Permutation_middle
             (ids (free_input_streams_ c) ++ ids (free_output_streams_ c))).
Qed.

Lemma pool_ids_insert (p : TreePtr) (c : t) (x : IntelHDAStream.t) :
  Permutation (pool_ids (assign p (insert x (deref p c)) c))
    (IntelHDAStream.id_ x :: pool_ids c).
Proof.
  unfold pool_ids.
  destruct p;
    cbn [assign deref free_input_streams_ free_output_streams_ free_bidir_streams_].
  - apply (Permutation_app_tail _ (ids_insert x (free_input_streams_ c))).
  - eapply perm_trans; [|apply Permutation_sym; apply Permutation_middle].
    apply Permutation_app_head.
    apply (Permutation_app_tail _ (ids_insert x (free_output_streams_ c))).
  - rewrite !app_assoc.
    eapply perm_trans;
      [|apply Permutation_sym;
        apply (Permutation_middle
                 (ids (free_input_streams_ c) ++ ids (free_output_streams_ c)))].
    apply Permutation_app_head. apply ids_insert.
Qed.

Lemma session_ids_call (x : Call) (se : Session) :
  Permutation (session_ids (call x se)) (session_ids se).
Proof.
  destruct se as [c l]. unfold session_ids.
  destruct x as [ty | k]; cbn [call ctl outstanding].
  - destruct (AllocateStream ty c) as [[[s|] c'] |] eqn:Ha; cbn [ctl outstanding].
    + destruct (AllocateStream_success ty c c' s Ha)
        as (_ & s0 & rest & tag & Hd & _ & -> & ->).
      cbn [ids map Configure IntelHDAStream.id_].
      apply Permutation_sym. fold (ids l).
      eapply perm_trans;
        [apply Permutation_app_head;
         apply (pool_ids_pop _ _ _ _ (Type_eqb ty INPUT)
                  (without_tag (tag_pool (Type_eqb ty INPUT) c) tag) Hd)|].
      apply Permutation_sym. apply Permutation_middle.
    + rewrite (AllocateStream_none ty c c' Ha). apply Permutation_refl.
    + apply Permutation_refl.
  - destruct (nth_error l k) as [s|] eqn:Hk; [|apply Permutation_refl].
    destruct (ReturnStream (Some s) c) as [c'|] eqn:Hr; [|apply Permutation_refl].
    cbn [ctl outstanding].
    assert (Hs : type_ s <> INVALID).
    { intros Hinv. unfold ReturnStream, ReturnStreamLocked, type in Hr.
      rewrite Hinv in Hr. discriminate Hr. }
    rewrite ReturnStream_eq in Hr by exact Hs. injection Hr as <-.
    destruct (nth_error_split l k Hk) as (l1 & l2 & -> & <-).
    rewrite remove_nth_app. unfold ids. rewrite !map_app. cbn [map].
    eapply perm_trans;
      [apply Permutation_app_head; apply pool_ids_insert|].
    cbn [Configure IntelHDAStream.id_].
    rewrite <- !app_assoc. apply Permutation_app_head.
    apply Permutation_sym. simpl.
    apply Permutation_middle.
Qed.

(** X7.  Allocating and returning never loses a context and never
    duplicates one: after any sequence of calls, the ids of the contexts
    that are parked in the three free lists or checked out are, up to
    order, the ids there were at the start; in particular their number is
    the same. *)
Theorem contexts_conserved (calls : list Call) (se : Session) :
  Permutation (session_ids (run calls se)) (session_ids se)
  /\ length (session_ids (run calls se)) = length (session_ids se).
Proof.
  assert (H : Permutation (session_ids (run calls se)) (session_ids se)).
  { revert se. induction calls as [|x calls IH]; intros se; simpl.
    - apply Permutation_refl.
    - eapply perm_trans; [apply IH | apply session_ids_call]. }
  split; [exact H | apply Permutation_length; exact H].
Qed.

(** *** Contexts stay with their class *)

Lemma pools_classified_pop (p : TreePtr) (c : t) (x : IntelHDAStream.t)
      (rest : Tree) (input : bool) (v : Z) :
  pools_classified c ->
  deref p c = x :: rest ->
  pools_classified (assign p rest (set_tag_pool input v c)).
Proof.
  intros Hcl Hd q y Hin.
  destruct (TreePtr_eq_dec p q) as [<- | Hne].
  - rewrite deref_assign_same in Hin. apply Hcl. rewrite Hd. right. exact Hin.
  - rewrite deref_assign_other, deref_set_tag_pool in Hin by exact Hne.
    apply Hcl. exact Hin.
Qed.

Lemma checked_out_returns (s : IntelHDAStream.t) :
  checked_out s -> type_ s <> INVALID.
Proof. intros ([H | H] & [Ht | Ht] & _); congruence. Qed.

Lemma session_ok_call (x : Call) (se : Session) :
  session_ok se -> session_ok (call x se).
Proof.
  destruct se as [c l]. intros [Hcl Hout]. cbn [ctl outstanding] in *.
  destruct x as [ty | k]; cbn [call ctl outstanding].
  - destruct (AllocateStream ty c) as [[[s|] c'] |] eqn:Ha.
    + destruct (AllocateStream_success ty c c' s Ha)
        as (Hty & s0 & rest & tag & Hd & (Ht & _) & -> & ->).
      split; cbn [ctl outstanding].
      * eapply pools_classified_pop; eassumption.
      * intros y [<- | Hin]; [|apply Hout; exact Hin].
        unfold checked_out. cbn [Configure configured_type_ type_ tag_].
        split; [exact Hty|]. split; [|exact Ht].
        rewrite (Hcl (source ty c) s0) by (rewrite Hd; left; reflexivity).
        unfold source. destruct (is_empty (deref (matching ty) c)).
        -- right. reflexivity.
        -- left. destruct Hty as [-> | ->]; reflexivity.
    + rewrite (AllocateStream_none ty c c' Ha). split; assumption.
    + split; assumption.
  - destruct (nth_error l k) as [s|] eqn:Hk; [|split; assumption].
    destruct (ReturnStream (Some s) c) as [c'|] eqn:Hr; [|split; assumption].
    assert (Hin : In s l) by (eapply nth_error_In; exact Hk).
    split; cbn [ctl outstanding].
    + eapply ReturnStream_classified; [|exact Hcl | exact Hr].
      apply checked_out_returns. apply Hout. exact Hin.
    + intros y Hy. apply Hout.
      destruct (nth_error_split l k Hk) as (l1 & l2 & -> & <-).
      rewrite remove_nth_app in Hy. apply in_app_or in Hy. apply in_or_app.
      destruct Hy as [Hy | Hy]; [left | right; right]; exact Hy.
Qed.

(** X8.  Start from free lists in which every context sits in the list of
    its creation type, with nothing checked out, and make any sequence of
    calls.  Then every free list still holds only contexts of its own
    class; every context checked out is configured as INPUT or OUTPUT,
    carries a tag in 1..15, and is by creation either of the direction it
    is configured as or bidirectional; and [ReturnStream] of any context
    checked out completes without tripping an assertion. *)
Theorem run_keeps_classes (calls : list Call) (c : t) :
  pools_classified c ->
  let se := run calls (mk_session c []) in
  pools_classified (ctl se)
  /\ forall s, In s (outstanding se) ->
       checked_out s
       /\ exists c', ReturnStream (Some s) (ctl se) = Done c'.
Proof.
  intros Hcl se.
  assert (Hrun : forall calls se, session_ok se -> session_ok (run calls se)).
  { clear. induction calls as [|x calls IH]; intros se Hok; simpl.
    - exact Hok.
    - apply IH. apply session_ok_call. exact Hok. }
  destruct (Hrun calls (mk_session c [])) as [Hcl' Hout'].
  { split; [exact Hcl | intros s []]. }
  fold se in Hcl', Hout'.
  split; [exact Hcl'|].
  intros s Hin. split; [apply Hout'; exact Hin|].
  eexists. apply ReturnStream_eq. apply checked_out_returns. apply Hout'. exact Hin.
Qed.

Lemma run_keeps_classes_witness :
  pools_classified only_bidir_context
  /\ forall s,
       In s (outstanding (run [Allocate OUTPUT] (mk_session only_bidir_context []))) ->
       checked_out s.
Proof.
  assert (Hcl : pools_classified only_bidir_context).
  { intros p x. destruct p; simpl; intros H; try contradiction.
    destruct H as [<- | []]. reflexivity. }
  split; [exact Hcl|].
  intros s Hin.
  destruct (run_keeps_classes [Allocate OUTPUT] only_bidir_context Hcl) as [_ H].
  apply (H s Hin).
Defined.

Lemma session_ids_run (calls : list Call) (se : Session) :
  Permutation (session_ids (run calls se)) (session_ids se).
Proof.
  revert se. induction calls as [|x calls IH]; intros se; simpl.
  - apply Permutation_refl.
  - eapply perm_trans; [apply IH | apply session_ids_call].
Qed.

(** X15.  When the contexts of the free lists have pairwise different
    ids and nothing is checked out, then after any sequence of calls no
    context is held twice: the contexts checked out have pairwise
    different ids, none of them is at the same time parked in a free
    list, and no id is parked twice. *)
Theorem no_context_handed_out_twice (calls : list Call) (c : t) :
  NoDup (pool_ids c) ->
  let se := run calls (mk_session c []) in
  NoDup (ids (outstanding se))
  /\ NoDup (pool_ids (ctl se))
  /\ forall s, In s (outstanding se) ->
       ~ In (IntelHDAStream.id_ s) (pool_ids (ctl se)).
Proof.
  intros Hnd se.
  assert (Hall : NoDup (session_ids se)).
  { apply (Permutation_NoDup (l := session_ids (mk_session c []))).
    - apply Permutation_sym. apply session_ids_run.
    - exact Hnd. }
  unfold session_ids in Hall.
  split; [eapply NoDup_app_remove_r; exact Hall|].
  split; [eapply NoDup_app_remove_l; exact Hall|].
  intros s Hin Hpool.
  assert (Hid : In (IntelHDAStream.id_ s) (ids (outstanding se)))
    by (unfold ids; apply in_map; exact Hin).
  clear Hin. revert Hall Hid Hpool.
  generalize (ids (outstanding se)) as l1, (pool_ids (ctl se)) as l2.
  induction l1 as [|a l1 IH]; intros l2 Hall Hid Hpool; [destruct Hid|].
  simpl in Hall. inversion Hall as [|? ? Hnotin Hrest]; subst.
  destruct Hid as [-> | Hid].
  - apply Hnotin. apply in_or_app. right. exact Hpool.
  - apply (IH l2 Hrest Hid Hpool).
Qed.

Lemma no_context_handed_out_twice_witness :
  NoDup (pool_ids only_bidir_context)
  /\ NoDup (ids (outstanding
                   (run [Allocate INPUT; Allocate OUTPUT]
                      (mk_session only_bidir_context [])))).
Proof.
  assert (Hnd : NoDup (pool_ids only_bidir_context))
    by (repeat constructor; simpl; tauto).
  split; [exact Hnd|].
  destruct (no_context_handed_out_twice [Allocate INPUT; Allocate OUTPUT]
              only_bidir_context Hnd) as [H _].
  exact H.
Defined.

(* ================================================================== *)
(** * Further properties of the lifecycle *)
(* ================================================================== *)

(** X9.  [DeviceShutdown] never trips an assertion and touches nothing
    but the lifecycle: the free lists, the tag pools, the handles, the PCI
    protocol and the registers are as before.  Done a second time it only
    deactivates the channels again: no store to the state, no wake-up, no
    join, and the controller is left as the first call left it. *)
Theorem DeviceShutdown_again (c : t) :
  exists tr c',
    DeviceShutdown c = Done (tr, c')
    /\ (forall p, deref p c' = deref p c)
    /\ (forall input, tag_pool input c' = tag_pool input c)
    /\ regs_handle_ c' = regs_handle_ c
    /\ irq_handle_ c' = irq_handle_ c
    /\ pci_ c' = pci_ c
    /\ regs_ c' = regs_ c
    /\ DeviceShutdown c' = Done ([EvDeactivate], c').
Proof.
  destruct c as [st id rh ih pci pd pdi regs fi fo fb ti to started active].
  destruct started; do 2 eexists; (split; [vm_compute; reflexivity|]);
    (split; [intros p; destruct p; reflexivity|]);
    (split; [intros input; destruct input; reflexivity|]);
    repeat (split; [reflexivity|]); reflexivity.
Qed.

(** *** When the destructor completes *)

Lemma is_some_neq {A : Type} (o : option A) : is_some o = true <-> o <> None.
Proof. destruct o; simpl; split; congruence. Qed.

(** The destructor, with its three assertions and its effects side by
    side. *)
Lemma dtor_eq (c : t) :
  dtor c
  = if negb (dtor_state_assert c) then AssertFailed
    else if negb (regs_handle_ c =? ZX_HANDLE_INVALID) && negb (is_some (ops (pci_ c)))
    then AssertFailed
    else if is_some (ops (pci_ c)) && negb (is_some (ctx (pci_ c)))
    then AssertFailed
    else
      Done ((if negb (regs_handle_ c =? ZX_HANDLE_INVALID)
             then [EvHandleClose (regs_handle_ c)] else [])
            ++ (if negb (irq_handle_ c =? ZX_HANDLE_INVALID)
                then [EvHandleClose (irq_handle_ c)] else [])
            ++ match ops (pci_ c), ctx (pci_ c) with
               | Some _, Some x => [EvIrqModeDisabled x]
               | _, _ => []
               end
            ++ [EvReleaseCmdBuf; EvReleaseBdl],
            let c' := assign free_input_streams []
                        (assign free_output_streams []
                           (assign free_bidir_streams [] c)) in
            if is_some (ops (pci_ c)) then set_pci (mk_pci None None) c' else c').
Proof.
  destruct c as [st id rh ih [o x] pd pdi regs fi fo fb ti to started active].
  unfold dtor, andthen, when, assert_that, emit, update, skip, dtor_state_assert.
  cbn -[Z.eqb].
  destruct st; cbn -[Z.eqb]; try reflexivity;
    destruct (rh =? ZX_HANDLE_INVALID); cbn -[Z.eqb];
    destruct o; cbn -[Z.eqb]; try reflexivity;
    destruct (ih =? ZX_HANDLE_INVALID); cbn -[Z.eqb];
    destruct x; cbn -[Z.eqb]; reflexivity.
Qed.

(** X10.  The destructor completes exactly when the state is STARTING or
    SHUT_DOWN, a valid register handle comes with a PCI protocol, and a
    PCI protocol comes with its context; otherwise it ends in an assertion
    failure.  When it completes, the three free lists are empty and the
    PCI protocol is gone; every valid handle among the register
    handle and the interrupt handle has been closed and nothing else has;
    interrupts have been disabled at the PCI level exactly when there was
    a PCI protocol; and both memory regions have been released. *)
Theorem dtor_completes_iff (c : t) :
  ((exists r, dtor c = Done r) <->
   dtor_state_assert c = true /\ pci_consistent c)
  /\ (dtor c = AssertFailed <->
      ~ (dtor_state_assert c = true /\ pci_consistent c))
  /\ (forall ev c',
        dtor c = Done (ev, c') ->
        (forall p, deref p c' = [])
        /\ ops (pci_ c') = None
        /\ (forall h, In (EvHandleClose h) ev <->
                      h <> ZX_HANDLE_INVALID
                      /\ (h = regs_handle_ c \/ h = irq_handle_ c))
        /\ (forall x, In (EvIrqModeDisabled x) ev <->
                      ops (pci_ c) <> None /\ ctx (pci_ c) = Some x)
        /\ In EvReleaseCmdBuf ev
        /\ In EvReleaseBdl ev).
Proof.
  rewrite dtor_eq. unfold pci_consistent.
  rewrite <- !is_some_neq.
  destruct (dtor_state_assert c); cbn [negb].
  2: { split; [split; [intros [r Hr]; discriminate Hr | intros [Hf _]; discriminate Hf]|].
       split; [split; [intros _ [Hf _]; discriminate Hf | reflexivity]|].
       intros ev c' Hd. discriminate Hd. }
  destruct (Z.eqb_spec (regs_handle_ c) ZX_HANDLE_INVALID) as [Hrh | Hrh];
    destruct (ops (pci_ c)) as [o|] eqn:Ho;
    destruct (ctx (pci_ c)) as [x|] eqn:Hx; cbn [negb andb is_some].
  all: split;
    [split;
     [intros [r Hr];
      first [discriminate Hr
            | split; [reflexivity|]; split; intros; congruence]
     | intros (_ & H1 & H2);
       first [specialize (H2 eq_refl); discriminate H2
             | specialize (H1 Hrh); discriminate H1
             | eexists; reflexivity]]|].
  all: split;
    [split;
     [intros Hf;
      first [discriminate Hf
            | intros (_ & H1 & H2);
              first [specialize (H2 eq_refl); discriminate H2
                    | specialize (H1 Hrh); discriminate H1]]
     | intros Hn;
       first [reflexivity
             | exfalso; apply Hn;
               split; [reflexivity|]; split; intros; congruence]]|].
  all: intros ev c' Hd; first [discriminate Hd | injection Hd as <- <-].
  all: split; [intros p; destruct p; reflexivity|].
  all: split; [first [reflexivity | destruct c; cbn in *; assumption]|].
  all: destruct (Z.eqb_spec (irq_handle_ c) ZX_HANDLE_INVALID) as [Hih | Hih];
    cbn [negb app].
  all: split;
    [intros h; cbn [In]; split;
     [intros H;
      repeat match goal with
             | H : _ \/ _ |- _ => destruct H
             | H : False |- _ => destruct H
             | H : EvHandleClose _ = EvHandleClose _ |- _ => injection H as <-
             end; try discriminate; auto
     | intros (Hne & [-> | ->]); try congruence; auto]|].
  all: split;
    [intros y; cbn [In]; split;
     [intros H;
      repeat match goal with
             | H : _ \/ _ |- _ => destruct H
             | H : False |- _ => destruct H
             | H : EvIrqModeDisabled _ = EvIrqModeDisabled _ |- _ => injection H as <-
             end; try discriminate; auto
     | intros (Hne & Hy); try discriminate Hy; try (exfalso; apply Hne; reflexivity);
       injection Hy as <-; auto]|].
  all: try (split; cbn [In]; auto 6).
  all: discriminate.
Qed.

(** *** Unbind, then release *)

Lemma dtor_completes (c : t) :
  dtor_state_assert c = true -> pci_consistent c -> exists r, dtor c = Done r.
Proof.
  intros Hst [H1 H2]. rewrite dtor_eq, Hst. cbn [negb].
  destruct (Z.eqb_spec (regs_handle_ c) ZX_HANDLE_INVALID) as [Hrh | Hrh];
    destruct (ops (pci_ c)) as [o|]; destruct (ctx (pci_ c)) as [x|];
    cbn [negb andb is_some];
    first [eexists; reflexivity
          | exfalso; apply H2; congruence
          | exfalso; apply (H1 Hrh); reflexivity].
Qed.

Lemma DeviceShutdown_eq (c : t) :
  DeviceShutdown c
  = if irq_thread_started_ c
    then Done ([EvDeactivate; EvStateWrite SHUTTING_DOWN; EvWakeupIRQThread;
                EvStateWrite SHUT_DOWN; EvThreadJoin],
               set_irq_thread_started false
                 (SetState SHUT_DOWN (set_default_domain_active false c)))
    else Done ([EvDeactivate], set_default_domain_active false c).
Proof.
  destruct c as [st id rh ih pci pd pdi regs fi fo fb ti to started active].
  destruct started; reflexivity.
Qed.

Lemma unbind_then_release_eq (c c' : t) (n : Z) (tr : list Event) :
  DeviceShutdown c = Done (tr, c') ->
  unbind_then_release (mk_ref c n)
  = if State_eqb (GetState c') SHUT_DOWN
    then if n - 1 =? 0
         then match dtor c' with
              | Done d => Done (tr ++ fst d, None, ZX_OK)
              | AssertFailed => AssertFailed
              end
         else Done (tr ++ [], Some (mk_ref c' (n - 1)), ZX_OK)
    else AssertFailed.
Proof.
  intros H.
  unfold unbind_then_release, DeviceShutdown_ref, DeviceRelease, RefPtr_reset.
  cbn [object ref_count_]. rewrite H. cbn [bind fst snd object ref_count_].
  destruct (State_eqb (GetState c') SHUT_DOWN); cbn [ZX_DEBUG_ASSERT bind];
    [|reflexivity].
  destruct (n - 1 =? 0); [|reflexivity].
  destruct (dtor c') as [d|]; reflexivity.
Qed.

(** X11.  The unbind hook followed by the release hook.  When the
    interrupt thread was started, or the controller is already in
    SHUT_DOWN, the pair completes with [ZX_OK]: if the framework's
    reference was not the last one, the controller lives on in SHUT_DOWN
    with one reference fewer and its thread no longer marked as started;
    if it was the last one and the PCI protocol is consistent, the
    controller is destroyed.  When the thread was never started and the
    controller is not in SHUT_DOWN, release trips its assertion. *)
Theorem unbind_then_release_outcome (r : Ref) :
  (irq_thread_started_ (object r) = true \/ GetState (object r) = SHUT_DOWN ->
   (ref_count_ r <> 1 ->
    exists ev obj',
      unbind_then_release r
      = Done (ev, Some (mk_ref obj' (ref_count_ r - 1)), ZX_OK)
      /\ GetState obj' = SHUT_DOWN
      /\ irq_thread_started_ obj' = false)
   /\ (ref_count_ r = 1 -> pci_consistent (object r) ->
       exists ev, unbind_then_release r = Done (ev, None, ZX_OK)))
  /\ (irq_thread_started_ (object r) = false ->
      GetState (object r) <> SHUT_DOWN ->
      unbind_then_release r = AssertFailed).
Proof.
  destruct r as [c n]. cbn [object ref_count_].
  pose proof (DeviceShutdown_eq c) as Hsd.
  split.
  - intros Hpre.
    set (c' := if irq_thread_started_ c
               then set_irq_thread_started false
                      (SetState SHUT_DOWN (set_default_domain_active false c))
               else set_default_domain_active false c).
    set (tr := if irq_thread_started_ c
               then [EvDeactivate; EvStateWrite SHUTTING_DOWN; EvWakeupIRQThread;
                     EvStateWrite SHUT_DOWN; EvThreadJoin]
               else [EvDeactivate]).
    assert (Hsd' : DeviceShutdown c = Done (tr, c'))
      by (rewrite Hsd; subst tr c'; destruct (irq_thread_started_ c); reflexivity).
    assert (Hst : GetState c' = SHUT_DOWN).
    { subst c'. destruct (irq_thread_started_ c) eqn:Hs; [reflexivity|].
      destruct Hpre as [Hf | Hdown]; [discriminate Hf|].
      destruct c; exact Hdown. }
    assert (Hth : irq_thread_started_ c' = false).
    { subst c'. destruct (irq_thread_started_ c) eqn:Hs; [reflexivity|].
      destruct c; exact Hs. }
    assert (Hpci : pci_consistent c -> pci_consistent c').
    { subst c'. destruct (irq_thread_started_ c); destruct c; intros H; exact H. }
    rewrite (unbind_then_release_eq c c' n tr Hsd'), Hst. cbn [State_eqb].
    split.
    + intros Hn.
      replace (n - 1 =? 0) with false by (symmetry; apply Z.eqb_neq; lia).
      do 2 eexists. split; [reflexivity|]. split; assumption.
    + intros -> Hcons. cbn [Z.sub Z.add Z.opp Z.pos_sub Z.eqb].
      destruct (dtor_completes c') as [d Hd].
      { unfold dtor_state_assert. rewrite Hst. reflexivity. }
      { apply Hpci. exact Hcons. }
      rewrite Hd. eexists. reflexivity.
  - intros Hs Hne.
    assert (Hsd' : DeviceShutdown c
                   = Done ([EvDeactivate], set_default_domain_active false c))
      by (rewrite Hsd, Hs; reflexivity).
    rewrite (unbind_then_release_eq _ _ n _ Hsd').
    replace (GetState (set_default_domain_active false c)) with (GetState c)
      by (destruct c; reflexivity).
    destruct (GetState c); try congruence; reflexivity.
Qed.

Lemma unbind_then_release_outcome_witness :
  irq_thread_started_ operating_controller = true
  /\ pci_consistent operating_controller
  /\ exists ev,
       unbind_then_release (mk_ref operating_controller 1) = Done (ev, None, ZX_OK).
Proof.
  assert (Hc : pci_consistent operating_controller)
    by (split; intros _; simpl; discriminate).
  split; [reflexivity|]. split; [exact Hc|].
  destruct (unbind_then_release_outcome (mk_ref operating_controller 1)) as [H _].
  destruct (H (or_introl eq_refl)) as [_ H1].
  apply (H1 eq_refl Hc).
Defined.

(** X12.  [DriverUnbind] trips its assertion on a null cookie.  On a
    cookie that does not hold the last reference it gives up one
    reference and does nothing else, whatever the state of the
    controller.  On the last reference it runs the destructor: the call
    completes, leaving no controller, exactly when the state is STARTING
    or SHUT_DOWN and the PCI protocol is consistent, and ends in an
    assertion failure otherwise, so in particular for a controller that is
    still OPERATING. *)
Theorem DriverUnbind_outcome (r : Ref) :
  DriverUnbind None = AssertFailed
  /\ (ref_count_ r <> 1 ->
      DriverUnbind (Some r)
      = Done ([], Some (mk_ref (object r) (ref_count_ r - 1))))
  /\ (ref_count_ r = 1 ->
      ((exists ev, DriverUnbind (Some r) = Done (ev, None)) <->
       dtor_state_assert (object r) = true /\ pci_consistent (object r))
      /\ (GetState (object r) = OPERATING \/ GetState (object r) = SHUTTING_DOWN ->
          DriverUnbind (Some r) = AssertFailed)).
Proof.
  split; [reflexivity|].
  unfold DriverUnbind, RefPtr_reset. cbn [is_some ZX_DEBUG_ASSERT bind].
  split.
  - intros Hn.
    replace (ref_count_ r - 1 =? 0) with false by (symmetry; apply Z.eqb_neq; lia).
    reflexivity.
  - intros ->. cbn [Z.sub Z.add Z.opp Z.pos_sub Z.eqb].
    split.
    + split.
      * intros [ev Hd]. rewrite dtor_eq in Hd. unfold pci_consistent.
        rewrite <- !is_some_neq.
        destruct (dtor_state_assert (object r)); [|discriminate Hd].
        split; [reflexivity|]. cbn [negb] in Hd.
        destruct (Z.eqb_spec (regs_handle_ (object r)) ZX_HANDLE_INVALID);
          destruct (ops (pci_ (object r))); destruct (ctx (pci_ (object r)));
          cbn [negb andb is_some bind] in *; try discriminate Hd;
          split; intros; congruence.
      * intros [Hst Hc]. destruct (dtor_completes (object r) Hst Hc) as [[ev cf] Hd].
        rewrite Hd. eexists. reflexivity.
    + intros Hst. rewrite dtor_eq. unfold dtor_state_assert.
      destruct Hst as [-> | ->]; reflexivity.
Qed.

Lemma DriverUnbind_outcome_witness :
  ref_count_ (mk_ref operating_controller 2) <> 1
  /\ DriverUnbind (Some (mk_ref operating_controller 2))
     = Done ([], Some (mk_ref operating_controller 1))
  /\ DriverUnbind (Some (mk_ref operating_controller 1)) = AssertFailed.
Proof.
  assert (Hn : ref_count_ (mk_ref operating_controller 2) <> 1)
    by (simpl; discriminate).
  split; [exact Hn|]. split.
  - destruct (DriverUnbind_outcome (mk_ref operating_controller 2)) as (_ & H & _).
    apply (H Hn).
  - destruct (DriverUnbind_outcome (mk_ref operating_controller 1)) as (_ & _ & H).
    destruct (H eq_refl) as [_ Hf]. apply Hf. left. reflexivity.
Defined.

(* ================================================================== *)
(** * Further properties of the client dispatch *)
(* ================================================================== *)

Section DispatchOutcomes.

Variable ihda_cmd_hdr_t : Type.
Variable cmd : ihda_cmd_hdr_t -> Z.
Variables sizeof_hdr sizeof_get_ids sizeof_snapshot_regs : Z.
Variables IHDA_CMD_GET_IDS IHDA_CONTROLLER_CMD_SNAPSHOT_REGS : Z.
Variable SnapshotRegs :
  Channel ihda_cmd_hdr_t -> RequestBuffer ihda_cmd_hdr_t -> t ->
  zx_status_t * Channel ihda_cmd_hdr_t.

Local Abbreviation process_request :=
  (ProcessClientRequest ihda_cmd_hdr_t cmd sizeof_hdr sizeof_get_ids
     sizeof_snapshot_regs IHDA_CMD_GET_IDS IHDA_CONTROLLER_CMD_SNAPSHOT_REGS
     SnapshotRegs).
Local Abbreviation expected_for :=
  (expected_size sizeof_get_ids sizeof_snapshot_regs
     IHDA_CMD_GET_IDS IHDA_CONTROLLER_CMD_SNAPSHOT_REGS).

(** X13.  On a controller whose PCI device and register window are set
    up, no request a client can send makes [ProcessClientRequest] trip an
    assertion: it always returns a status.  A failed read is passed on as
    it is and the channel is left alone.  The status is [ZX_OK] only for
    a request that was read successfully, holds a whole header and has
    exactly the size its command id calls for.  And unless the request is
    handed to [SnapshotRegs], the channel is either left as it was or has
    received exactly one GET_IDS response, whose write status is what is
    returned. *)
Theorem ProcessClientRequest_outcomes
        (ch : Channel ihda_cmd_hdr_t) (c : t) (dev : Z) (regs : hda_registers_t) :
  pci_dev_ c = Some dev ->
  regs_ c = Some regs ->
  let res := fst (fst (next_read ch)) in
  let req_size := snd (fst (next_read ch)) in
  let req := snd (next_read ch) in
  exists st ch',
    process_request (Some ch) c = Done (st, Some ch')
    /\ (res <> ZX_OK -> st = res /\ ch' = ch)
    /\ (st = ZX_OK ->
        res = ZX_OK /\ sizeof_hdr <= req_size
        /\ expected_for (cmd (hdr req)) = Some req_size)
    /\ (cmd (hdr req) = IHDA_CMD_GET_IDS
        \/ cmd (hdr req) <> IHDA_CONTROLLER_CMD_SNAPSHOT_REGS ->
        ch' = ch
        \/ exists resp,
             st = next_write ch
             /\ ch' = mk_chan (next_read ch) (next_write ch)
                        (writes ch ++ [get_ids_resp resp])).
Proof.
  intros Hdev Hregs res req_size req. subst res req_size req.
  unfold ProcessClientRequest, Read, Write, expected_size.
  cbn [is_some ZX_DEBUG_ASSERT bind].
  destruct (next_read ch) as [[res req_size] req] eqn:Hread. cbn [fst snd].
  destruct (Z.eqb_spec res ZX_OK) as [Hres | Hres]; cbn [negb].
  2: { do 2 eexists. split; [reflexivity|].
       split; [auto|]. split; [intros H; congruence|]. auto. }
  destruct (Z.ltb_spec req_size sizeof_hdr) as [Hshort | Hlen].
  { do 2 eexists. split; [reflexivity|].
    split; [intros H; congruence|]. split; [intros H; discriminate H|]. auto. }
  destruct (Z.eqb_spec (cmd (hdr req)) IHDA_CMD_GET_IDS) as [Hget | Hget].
  - destruct (Z.eqb_spec req_size sizeof_get_ids) as [Hsz | Hsz]; cbn [negb].
    + rewrite Hdev, Hregs. cbn [is_some ZX_DEBUG_ASSERT bind].
      do 2 eexists. split; [reflexivity|].
      split; [intros H; congruence|].
      split; [intros _; repeat split; congruence || assumption|].
      intros _. right. eexists. split; reflexivity.
    + do 2 eexists. split; [reflexivity|].
      split; [intros H; congruence|]. split; [intros H; discriminate H|]. auto.
  - destruct (Z.eqb_spec (cmd (hdr req)) IHDA_CONTROLLER_CMD_SNAPSHOT_REGS)
      as [Hsnap | Hsnap].
    + destruct (Z.eqb_spec req_size sizeof_snapshot_regs) as [Hsz | Hsz]; cbn [negb].
      * destruct (SnapshotRegs ch req c) as [st ch'].
        do 2 eexists. split; [reflexivity|].
        split; [intros H; congruence|].
        split; [intros _; repeat split; congruence || assumption|].
        intros [H | H]; congruence.
      * do 2 eexists. split; [reflexivity|].
        split; [intros H; congruence|]. split; [intros H; discriminate H|]. auto.
    + do 2 eexists. split; [reflexivity|].
      split; [intros H; congruence|]. split; [intros H; discriminate H|]. auto.
Qed.

End DispatchOutcomes.

Lemma ProcessClientRequest_outcomes_witness :
  let ch := mk_chan (-24, 0, mk_req 0) ZX_OK [] in
  pci_dev_ operating_controller = Some 3
  /\ regs_ operating_controller = Some (mk_regs 0 1)
  /\ exists st ch',
       sample_process (Some ch) operating_controller = Done (st, Some ch')
       /\ st = -24 /\ ch' = ch.
Proof.
  intros ch. split; [reflexivity|]. split; [reflexivity|].
  destruct (ProcessClientRequest_outcomes Z (fun h => h) 8 8 8 4096 8192
              sample_snapshot ch operating_controller 3 (mk_regs 0 1)
              eq_refl eq_refl)
    as (st & ch' & Hp & Hfail & _).
  exists st, ch'. split; [exact Hp|].
  apply Hfail. simpl. discriminate.
Defined.

(* ================================================================== *)
(** * Further properties of construction *)
(* ================================================================== *)

Lemma generator_after_eq (n : nat) (gen : Z) :
  is_uint32 gen -> generator_after n gen = (gen + Z.of_nat n) mod 2 ^ 32.
Proof.
  intros Hg. induction n as [|n IH].
  - simpl. rewrite Z.add_0_r. symmetry. apply Z.mod_small. exact Hg.
  - cbn [generator_after]. rewrite IH. unfold ctor, fetch_add1. cbn [snd].
    rewrite Zplus_mod_idemp_l. f_equal. lia.
Qed.

Lemma ctor_id (gen : Z) : id_ (fst (ctor gen)) = gen.
Proof. reflexivity. Qed.

(** X14.  Controllers constructed one after another from the same id
    generator get different ids as long as fewer than 2^32 of them lie
    between the two: the [n]-th and the [m]-th constructed differ in their
    id whenever [n < m < n + 2^32].  Each of them starts in STARTING. *)
Theorem constructed_ids_distinct (device_id_gen_ : Z) (n m : nat) :
  is_uint32 device_id_gen_ ->
  (n < m)%nat ->
  Z.of_nat m - Z.of_nat n < 2 ^ 32 ->
  let a := fst (ctor (generator_after n device_id_gen_)) in
  let b := fst (ctor (generator_after m device_id_gen_)) in
  id_ a <> id_ b
  /\ is_uint32 (id_ a) /\ is_uint32 (id_ b)
  /\ GetState a = STARTING /\ GetState b = STARTING.
Proof.
  intros Hg Hnm Hclose a b. subst a b.
  rewrite !ctor_id, !generator_after_eq by exact Hg.
  assert (Hpos : 0 < 2 ^ 32) by lia.
  split; [|repeat split; apply Z.mod_pos_bound; exact Hpos].
  intros Heq.
  rewrite (Z.mod_eq (device_id_gen_ + Z.of_nat n)),
          (Z.mod_eq (device_id_gen_ + Z.of_nat m)) in Heq by lia.
  set (qa := (device_id_gen_ + Z.of_nat n) / 2 ^ 32) in *.
  set (qb := (device_id_gen_ + Z.of_nat m) / 2 ^ 32) in *.
  assert (Hd : Z.of_nat m - Z.of_nat n = 2 ^ 32 * (qb - qa)) by lia.
  assert (Hq : qb - qa <= 0 \/ 1 <= qb - qa) by lia.
  destruct Hq as [Hq | Hq]; nia.
Qed.

Lemma constructed_ids_distinct_witness :
  is_uint32 4294967295
  /\ id_ (fst (ctor (generator_after 0 4294967295)))
     <> id_ (fst (ctor (generator_after 1 4294967295))).
Proof.
  assert (Hg : is_uint32 4294967295) by (unfold is_uint32; simpl; lia).
  split; [exact Hg|].
  destruct (constructed_ids_distinct 4294967295 0 1 Hg ltac:(lia) ltac:(simpl; lia))
    as [H _].
  exact H.
Defined.
